(** * fivem-playtime-bot: subscription gate, permission records, owner-only extension

    A shallow embedding of [src/index.js] (a discord.js bot over two mongoose
    collections) and the properties of its access-control core.

    Modelling conventions, all read off the source:

    - A mongoose collection is the list of its documents in natural
      (insertion) order.  [Model.create] appends, [Model.findOne] yields the
      first document matching the filter, [Model.findOneAndDelete] removes
      that first document, [doc.save()] writes the document back in place.
      Neither schema declares a unique index, so nothing is rejected as a
      duplicate.  A document's identity (mongoose's [_id]) is its position.
    - Every store call may throw.  Which calls throw is an input of each
      handler run ([throws : StoreCall -> bool]); the calls a run issued are
      recorded, so that "no write was attempted" can be stated.
    - A handler runs to completion before the next event is delivered.
    - A day count is a JavaScript number holding an integer; adding two of
      them rounds to the nearest double ([Number_add]), which is the exact
      sum while that sum is at most 2^53 in magnitude.  Time values are
      integers of milliseconds, and a [Date] keeps its own validity range
      (see [TimeClip]).
    - [Date.prototype.setDate] works on local calendar days.  The host time
      zone is a parameter ([TimeZone], ECMAScript's LocalTZA): moving the day
      of the month by [n] moves the local time by [n] times 86,400,000 ms,
      and the result is read back as a UTC time value with the offset the
      zone has there.
    - An [Interaction] is one whose [guild] is there.  The catalog is
      registered globally, so a command can also be used in a direct
      message; there, and for a guild missing from the client's cache,
      [interaction.guild] is null.  That is the other case of [Delivery].
    - [console.log] and [console.error] are not observable and are left out;
      [interaction.reply(...)] is the handler's result.
    - Commands reach the handler only through the catalog registered at
      lines 176-214, so a command arrives with its required options. *)

From Stdlib Require Import ZArith QArith Qround Lia.
From stdpp Require Import base decidable option list strings pretty relations.

Open Scope Z_scope.

(** ** Schemas (lines 9-20) *)

Module permissionSchema.
Record t : Type := {
  guildId : string;
  userId : string;
  canAddTime : bool;
  canRemoveTime : bool
}.
End permissionSchema.

Module subscriptionSchema.
(** [startDate] is the stored time value in milliseconds since the epoch,
    [duration] the number of days. *)
Record t : Type := {
  guildId : string;
  startDate : Z;
  duration : Z
}.
End subscriptionSchema.

(** ** The document store *)

Record DB : Type := {
  subscriptions : list subscriptionSchema.t;
  permissions : list permissionSchema.t
}.

Inductive StoreCall : Type :=
  | Subscription_create (doc : subscriptionSchema.t)
  | Subscription_findOne (guildId : string)
  | Subscription_save (index : nat) (doc : subscriptionSchema.t)
  | Permission_create (doc : permissionSchema.t)
  | Permission_findOne (guildId userId : string)
  | Permission_findOneAndDelete (guildId userId : string).

(** ** Asynchronous computations over the store

    An [Async A] is an awaited promise: it reads which store calls throw,
    threads the database and the list of calls issued so far, and either
    resolves to a value or rejects. *)

Inductive Result (A : Type) : Type :=
  | Ok (a : A)
  | Throw.
Arguments Ok {A} a.
Arguments Throw {A}.

Record World : Type := {
  db : DB;
  calls : list StoreCall
}.

(** The world a handler starts in. *)
Definition fresh (d : DB) : World := {| db := d; calls := [] |}.

Definition Async (A : Type) : Type :=
  (StoreCall → bool) → World → Result A * World.

Definition resolve {A} (a : A) : Async A := λ _ w, (Ok a, w).

Definition await {A B} (m : Async A) (k : A → Async B) : Async B :=
  λ throws w,
    match m throws w with
    | (Ok a, w') => k a throws w'
    | (Throw, w') => (Throw, w')
    end.


(** [try { body } catch (error) { handler }] *)
Definition try_catch {A} (body handler : Async A) : Async A :=
  λ throws w,
    match body throws w with
    | (Ok a, w') => (Ok a, w')
    | (Throw, w') => handler throws w'
    end.

(** One round trip to the store: the call is recorded; it either throws and
    leaves the database alone, or applies [op]. *)
Definition store_call {A} (c : StoreCall) (op : DB → A * DB) : Async A :=
  λ throws w,
    let issued := calls w ++ [c] in
    if throws c then (Throw, {| db := db w; calls := issued |})
    else let '(a, d) := op (db w) in (Ok a, {| db := d; calls := issued |}).

Notation "'let*' x := m 'in' k" := (await m (λ x, k))
  (at level 10, x pattern, m at level 100, k at level 200).

(** ** Numbers

    [round_to_double z] is the double nearest to the integer [z]: 53 bits of
    precision, to nearest, ties to even.  An integer of magnitude at most
    2^53 is its own double.  Infinity is left out: an integer option of a
    slash command is at most 2^53 in magnitude, and adding one to a finite
    double never reaches 2^1024. *)

Definition round_to_double (z : Z) : Z :=
  let a := Z.abs z in
  if a <? 2 ^ 53 then z
  else
    let unit := 2 ^ (Z.log2 a - 52) in
    let q := a / unit in
    let r := a mod unit in
    let half := unit / 2 in
    let up :=
      if r <? half then false
      else if half <? r then true
      else Z.odd q in
    Z.sgn z * ((if up then q + 1 else q) * unit).

(** [a + b] on two numbers that hold integers: IEEE addition is the exact
    sum, rounded. *)
Definition Number_add (a b : Z) : Z := round_to_double (a + b).

(** The integers every one of which is a double. *)
Definition safe_integer (z : Z) : Prop := Z.abs z ≤ 2 ^ 53.

(** ** Models (lines 23-24) *)

Module Subscription.
Import subscriptionSchema.

(** The filter [{ guildId }]. *)
Definition filter_guild (g : string) (s : t) : Prop := guildId s = g.

#[global] Instance filter_guild_dec g s : Decision (filter_guild g s).
Proof. unfold filter_guild. apply _. Defined.

(** [Subscription.create({ guildId })]: [startDate] defaults to
    [Date.now], [duration] to 0. *)
Definition create (g : string) (now : Z) : Async t :=
  let doc := {| guildId := g; startDate := now; duration := 0 |} in
  store_call (Subscription_create doc)
    (λ d, (doc, {| subscriptions := subscriptions d ++ [doc];
                   permissions := permissions d |})).

(** [Subscription.findOne({ guildId })]: the first match with its
    position, or null. *)
Definition findOne (g : string) : Async (option (nat * t)) :=
  store_call (Subscription_findOne g)
    (λ d, (list_find (filter_guild g) (subscriptions d), d)).

(** [subscription.save()] for the document found at position [i]. *)
Definition save (i : nat) (doc : t) : Async unit :=
  store_call (Subscription_save i doc)
    (λ d, (tt, {| subscriptions := <[i := doc]> (subscriptions d);
                  permissions := permissions d |})).

(** [subscription.duration += additionalDays] on the in-memory document. *)
Definition add_duration (doc : t) (additionalDays : Z) : t :=
  {| guildId := guildId doc;
     startDate := startDate doc;
     duration := Number_add (duration doc) additionalDays |}.
End Subscription.

Module Permission.
Import permissionSchema.

(** The filter [{ guildId, userId }]. *)
Definition filter_pair (g u : string) (p : t) : Prop :=
  guildId p = g ∧ userId p = u.

#[global] Instance filter_pair_dec g u p : Decision (filter_pair g u p).
Proof. unfold filter_pair. apply _. Defined.

(** [Permission.create({ guildId, userId, canAddTime, canRemoveTime })] *)
Definition create (doc : t) : Async t :=
  store_call (Permission_create doc)
    (λ d, (doc, {| subscriptions := subscriptions d;
                   permissions := permissions d ++ [doc] |})).

(** [Permission.findOne({ guildId, userId })] *)
Definition findOne (g u : string) : Async (option t) :=
  store_call (Permission_findOne g u)
    (λ d, (snd <$> list_find (filter_pair g u) (permissions d), d)).

(** [Permission.findOneAndDelete({ guildId, userId })]: removes the first
    match and yields it; yields null, without an error, when there is
    none. *)
Definition findOneAndDelete (g u : string) : Async (option t) :=
  store_call (Permission_findOneAndDelete g u)
    (λ d, match list_find (filter_pair g u) (permissions d) with
          | Some (i, p) =>
              (Some p, {| subscriptions := subscriptions d;
                          permissions := delete i (permissions d) |})
          | None => (None, d)
          end).
End Permission.

(** ** Dates

    A [Date] holds a time value in milliseconds since the epoch, or is an
    Invalid Date ([None], the time value NaN).  ECMAScript's [TimeClip] turns
    every time value beyond 8.64e15 ms into NaN. *)

Definition msPerDay : Z := 1000 * 60 * 60 * 24.
Definition maxTimeValue : Z := 8640000000000000.

Definition Date : Type := option Z.

Definition TimeClip (tv : Z) : Date :=
  if bool_decide (Z.abs tv ≤ maxTimeValue) then Some tv else None.

(** [new Date(value)] *)
Definition new_Date (value : Z) : Date := TimeClip value.

(** The host time zone, as ECMAScript's LocalTZA(t, isUTC): the offset of
    local time from UTC in milliseconds, at the UTC time value [t] when
    [isUTC] is true and at the local time value [t] when it is false (where
    the host settles local times that occur twice or not at all). *)
Record TimeZone : Type := { LocalTZA : Z → bool → Z }.

Definition LocalTime (tz : TimeZone) (t : Z) : Z := t + LocalTZA tz t true.

Definition UTC (tz : TimeZone) (t : Z) : Z := t - LocalTZA tz t false.

(** A zone whose offset never changes, and the zone of offset 0. *)
Definition fixed_offset (c : Z) : TimeZone := {| LocalTZA := λ _ _, c |}.

Definition Etc_UTC : TimeZone := fixed_offset 0.

(** [d.setDate(d.getDate() + n)], which mutates [d]; here it yields the new
    date.  The day of the month is read in local time and [n] added to it;
    the day number of the local time moves by [n], its time within the day
    stays, and the local time so made is read back as a UTC time value and
    clipped.  A day count of 2^53 or more always clips to an Invalid Date,
    below that the doubles involved are exact up to the clip. *)
Definition setDate_plus (tz : TimeZone) (d : Date) (n : Z) : Date :=
  match d with
  | Some tv => TimeClip (UTC tz (LocalTime tz tv + n * msPerDay))
  | None => None
  end.

(** [a > b] on dates: both convert to their time values, and a comparison
    with NaN is false. *)
Definition Date_gt (a b : Date) : bool :=
  match a, b with
  | Some x, Some y => bool_decide (y < x)
  | _, _ => false
  end.

(** [a - b] on dates: a number, NaN ([None]) when either date is invalid. *)
Definition Date_minus (a b : Date) : option Z :=
  match a, b with
  | Some x, Some y => Some (x - y)
  | _, _ => None
  end.

(** [Math.max(0, Math.ceil(ms / (1000 * 60 * 60 * 24)))], the quotient taken
    in the rationals.  For the non-negative differences that reach this
    expression (at most 8.64e15 ms after a clock reading past the epoch) the
    double quotient has the same ceiling: a non-integral quotient below 2^27
    lies at least 1/86400000 above its floor, more than half an ulp. *)
Definition remaining_days (ms : option Z) : option Z :=
  match ms with
  | Some x => Some (Z.max 0 (Qceiling (inject_Z x / inject_Z msPerDay)))
  | None => None
  end.

(** A number inside a template literal. *)
Definition Number_toString (n : option Z) : string :=
  match n with
  | Some z => pretty z
  | None => "NaN"
  end.

(** ** Replies and messages (lines 41-49) *)

Record Reply : Type := {
  content : string;
  ephemeral : bool
}.

(** [interaction.reply('...')] *)
Definition reply_text (text : string) : Reply :=
  {| content := text; ephemeral := false |}.

(** [interaction.reply({ content: ..., ephemeral: true })] *)
Definition reply_ephemeral (text : string) : Reply :=
  {| content := text; ephemeral := true |}.

Module ERROR_MESSAGES.
Definition unauthorized : string :=
  "You do not have permission to use this command.".
Definition commandNotFound : string := "Command not found.".
Definition invalidParameters : string :=
  "Invalid parameters. Usage: /addtime [steam_hex] [play_time]".
Definition databaseError : string :=
  "An error occurred while accessing the database.".
Definition permissionDenied : string :=
  "Permission denied. Only the bot owner can use this command.".
Definition subscriptionExpired : string :=
  "Your subscription has expired. Please contact the bot owner to extend the subscription.".
Definition subscriptionNotFound : string :=
  "Subscription not found for this server.".
End ERROR_MESSAGES.

(** ** Commands (the catalog of lines 176-214) and interactions *)

Inductive Command : Type :=
  | addtime (steam_hex : string) (play_time : Z)
  | listtimes (page : option Z)
  | extendtime (days : Z)
  | grantaccess (user : string) (addtime_flag removetime_flag : bool)
  | revokeaccess (user : string)
  | checksubscription
  | resetplaytime (user : string)
  | resetallplaytimes
  | removeplaytime (steam_hex : string).

Definition commandName (c : Command) : string :=
  match c with
  | addtime _ _ => "addtime"
  | listtimes _ => "listtimes"
  | extendtime _ => "extendtime"
  | grantaccess _ _ _ => "grantaccess"
  | revokeaccess _ => "revokeaccess"
  | checksubscription => "checksubscription"
  | resetplaytime _ => "resetplaytime"
  | resetallplaytimes => "resetallplaytimes"
  | removeplaytime _ => "removeplaytime"
  end.

(** What the handler destructures from an interaction: [user] is [user.id],
    [guild] is [guild.id]. *)
Record Interaction : Type := {
  isCommand : bool;
  command : Command;
  user : string;
  guild : string
}.



(** ** [client.on('guildCreate', ...)] (lines 56-64) *)

Definition guildCreate (guild_id : string) (now : Z) : Async unit :=
  try_catch
    (let* _ := Subscription.create guild_id now in resolve tt)
    (resolve tt).

(** ** [client.on('interactionCreate', ...)] (lines 66-167) *)

Section Host.

(** The time zone of the host the bot runs on. *)
Variable tz : TimeZone.

(** What the statements after the expiry check still use. *)
Record Active : Type := {
  subscription : nat * subscriptionSchema.t;
  currentDate : Date;
  expiryDate : Date
}.

(** Lines 71-81: an early reply, or the subscription that was found. *)
Definition fetch_subscription (guild_id : string)
  : Async (Reply + nat * subscriptionSchema.t) :=
  try_catch
    (let* found := Subscription.findOne guild_id in
     match found with
     | None => resolve (inl (reply_ephemeral ERROR_MESSAGES.subscriptionNotFound))
     | Some s => resolve (inr s)
     end)
    (resolve (inl (reply_ephemeral ERROR_MESSAGES.databaseError))).

(** Lines 83-90: [now] is the clock reading of [new Date()]. *)
Definition check_expiry (s : nat * subscriptionSchema.t) (now : Z)
  : Reply + Active :=
  let currentDate := Some now in
  let expiryDate :=
    setDate_plus tz (new_Date (subscriptionSchema.startDate (snd s)))
                 (subscriptionSchema.duration (snd s)) in
  if Date_gt currentDate expiryDate
  then inl (reply_ephemeral ERROR_MESSAGES.subscriptionExpired)
  else inr {| subscription := s;
              currentDate := currentDate;
              expiryDate := expiryDate |}.

(** Lines 71-90 together: the gate every command passes first. *)
Definition subscription_gate (guild_id : string) (now : Z)
  : Async (Reply + Active) :=
  let* fetched := fetch_subscription guild_id in
  match fetched with
  | inl early => resolve (inl early)
  | inr s => resolve (check_expiry s now)
  end.

(** Function [hasPermission] (lines 170-173); the handler never calls it.
    The result is the truthiness of
    [permission && (permission.canAddTime || permission.canRemoveTime)]. *)
Definition hasPermission (guildId userId : string) : Async bool :=
  let* permission := Permission.findOne guildId userId in
  resolve
    match permission with
    | Some p => permissionSchema.canAddTime p || permissionSchema.canRemoveTime p
    | None => false
    end.

Section Handler.

(** [process.env.BOT_CREATOR_ID]: a string, or undefined when the variable
    is not set. *)
Variable BOT_CREATOR_ID : option string.

(** Lines 92-166.  A branch with an empty body falls out of the handler
    without a reply. *)
Definition handle_command (i : Interaction) (a : Active)
  : Async (option Reply) :=
  match command i with
  | grantaccess userId canAddTime canRemoveTime =>
      try_catch
        (let* _ := Permission.create
                     {| permissionSchema.guildId := guild i;
                        permissionSchema.userId := userId;
                        permissionSchema.canAddTime := canAddTime;
                        permissionSchema.canRemoveTime := canRemoveTime |} in
         resolve (Some (reply_text "Access granted successfully.")))
        (resolve (Some (reply_text "Failed to grant access.")))
  | revokeaccess userId =>
      try_catch
        (let* _ := Permission.findOneAndDelete (guild i) userId in
         resolve (Some (reply_text "Access revoked successfully.")))
        (resolve (Some (reply_text "Failed to revoke access.")))
  | addtime _ _ => resolve None
  | listtimes _ => resolve None
  | extendtime additionalDays =>
      if bool_decide (Some (user i) ≠ BOT_CREATOR_ID)
      then resolve (Some (reply_ephemeral ERROR_MESSAGES.permissionDenied))
      else
        try_catch
          (let '(index, doc) := subscription a in
           let* _ := Subscription.save index
                       (Subscription.add_duration doc additionalDays) in
           resolve (Some (reply_text
             ("Subscription extended by " +:+ pretty additionalDays +:+ " days."))))
          (resolve (Some (reply_ephemeral ERROR_MESSAGES.databaseError)))
  | checksubscription =>
      let remainingDays :=
        remaining_days (Date_minus (expiryDate a) (currentDate a)) in
      resolve (Some (reply_text
        ("Subscription has " +:+ Number_toString remainingDays +:+ " days remaining.")))
  | resetplaytime _ => resolve None
  | resetallplaytimes => resolve None
  | removeplaytime _ => resolve None
  end.

Definition interactionCreate (i : Interaction) (now : Z)
  : Async (option Reply) :=
  if negb (isCommand i) then resolve None
  else
    let* gate := subscription_gate (guild i) now in
    match gate with
    | inl early => resolve (Some early)
    | inr a => handle_command i a
    end.



End Handler.

(** ** Running a handler against a database *)

Record Outcome : Type := {
  reply : option Reply;
  db_after : DB;
  store_calls : list StoreCall
}.

(** A rejection that escapes the handler leaves no reply. *)
Definition run (handler : Async (option Reply)) (throws : StoreCall → bool)
    (d : DB) : Outcome :=
  match handler throws (fresh d) with
  | (Ok r, w) => {| reply := r; db_after := db w; store_calls := calls w |}
  | (Throw, w) => {| reply := None; db_after := db w; store_calls := calls w |}
  end.

Definition run_guildCreate (guild_id : string) (now : Z)
    (throws : StoreCall → bool) (d : DB) : DB :=
  db (snd (guildCreate guild_id now throws (fresh d))).

(** No store call throws. *)
Definition healthy : StoreCall → bool := λ _, false.

(** ** The command-handling step relation

    A state is the clock together with the database; a step delivers one
    interaction at a clock reading that is not earlier than the last one. *)

Record BotState : Type := {
  clock : Z;
  store : DB
}.

Inductive command_step (BOT_CREATOR_ID : option string)
  : BotState → BotState → Prop :=
  | deliver (s : BotState) (i : Interaction) (now : Z)
      (throws : StoreCall → bool) :
      clock s ≤ now →
      command_step BOT_CREATOR_ID s
        {| clock := now;
           store := db_after (run (interactionCreate BOT_CREATOR_ID i now)
                                  throws (store s)) |}.

(** ** Words of the specification *)

(** What [Subscription.findOne] sees for a guild: the first record of the
    guild and its position. *)
Definition stored_subscription (g : string) (d : DB)
  : option (nat * subscriptionSchema.t) :=
  list_find (Subscription.filter_guild g) (subscriptions d).

(** Number of Subscription records of a guild. *)
Definition subscription_count (g : string) (d : DB) : nat :=
  length (filter (Subscription.filter_guild g) (subscriptions d)).

(** The Permission records of a (guild, user) pair, in store order. *)
Definition permission_records (g u : string) (d : DB)
  : list permissionSchema.t :=
  filter (Permission.filter_pair g u) (permissions d).

(** The instant [startDate + durationDays], whole days of 86,400,000 ms
    added to the start time stamp. *)
Definition expiry_instant (s : subscriptionSchema.t) : Z :=
  subscriptionSchema.startDate s + subscriptionSchema.duration s * msPerDay.

(** The expiry date the handler computes for a record (lines 85-86): the
    start date moved by [duration] calendar days in the host's local
    time. *)
Definition expiryDate_of (s : subscriptionSchema.t) : Date :=
  setDate_plus tz (new_Date (subscriptionSchema.startDate s))
               (subscriptionSchema.duration s).

(** A time value a [Date] can hold. *)
Definition representable (tv : Z) : Prop := Z.abs tv ≤ maxTimeValue.

(** [q] is the ceiling of the quotient [x / d]: the least integer that is
    not below it. *)
Definition ceiling_of_quotient (q x d : Z) : Prop :=
  (q - 1) * d < x ≤ q * d.

(** An active subscription: the guild's record as the lookup sees it, and a
    clock reading at which the handler's expiry test ([currentDate >
    expiryDate], line 88) does not fire. *)
Definition active_subscription (g : string) (d : DB) (now : Z)
    (index : nat) (doc : subscriptionSchema.t) : Prop :=
  stored_subscription g d = Some (index, doc) ∧
  Date_gt (Some now) (expiryDate_of doc) = false.

(** An expired one: the handler's expiry test fires, that is, the expiry
    date is a valid Date and the clock reading is strictly after it. *)
Definition expired_subscription (g : string) (d : DB) (now : Z)
    (index : nat) (doc : subscriptionSchema.t) : Prop :=
  stored_subscription g d = Some (index, doc) ∧
  Date_gt (Some now) (expiryDate_of doc) = true.

(** The database after [doc] has been written back at [index]. *)
Definition with_subscription (index : nat) (doc : subscriptionSchema.t)
    (d : DB) : DB :=
  {| subscriptions := <[index := doc]> (subscriptions d);
     permissions := permissions d |}.

(** The duration of the guild's subscription as the lookup sees it. *)
Definition durationDays (g : string) (d : DB) : option Z :=
  (subscriptionSchema.duration ∘ snd) <$> stored_subscription g d.

(** The record [grantaccess] builds, and the database after it has been
    inserted. *)
Definition granted (g u : string) (canAdd canRemove : bool)
  : permissionSchema.t :=
  {| permissionSchema.guildId := g;
     permissionSchema.userId := u;
     permissionSchema.canAddTime := canAdd;
     permissionSchema.canRemoveTime := canRemove |}.

Definition with_permission (p : permissionSchema.t) (d : DB) : DB :=
  {| subscriptions := subscriptions d; permissions := permissions d ++ [p] |}.

(** The database after the first record of the pair, if any, has been
    removed. *)
Definition without_first_permission (g u : string) (d : DB) : DB :=
  match list_find (Permission.filter_pair g u) (permissions d) with
  | Some (index, _) =>
      {| subscriptions := subscriptions d;
         permissions := delete index (permissions d) |}
  | None => d
  end.

(** The record a join notification at clock reading [now] creates. *)
Definition bootstrap_record (g : string) (now : Z) : subscriptionSchema.t :=
  {| subscriptionSchema.guildId := g;
     subscriptionSchema.startDate := now;
     subscriptionSchema.duration := 0 |}.

(** A sequence of join notifications for one guild, delivered at the given
    clock readings while the store answers. *)
Definition run_joins (g : string) (nows : list Z) (d : DB) : DB :=
  fold_left (λ d0 now, run_guildCreate g now healthy d0) nows d.

(** The commands the catalog of the specification calls permission-gated:
    addtime (add), resetplaytime and removeplaytime (remove). *)
Definition permission_gated (c : Command) : bool :=
  match c with
  | addtime _ _ | resetplaytime _ | removeplaytime _ => true
  | _ => false
  end.

(** The gate's verdict on a run of [subscription_gate]. *)
Definition allowed (r : Result (Reply + Active) * World) : Prop :=
  ∃ a, fst r = Ok (inr a).

Definition denied_with (message : string) (r : Result (Reply + Active) * World)
  : Prop :=
  fst r = Ok (inl (reply_ephemeral message)).

(** The world right after the subscription lookup. *)
Definition after_lookup (g : string) (w : World) : World :=
  {| db := db w; calls := calls w ++ [Subscription_findOne g] |}.

(** ** Sample data

    Guild G1, the configured owner U1 and another user U2; a subscription of
    thirty days that started at 1,700,000,000,000 ms. *)

Definition slash (c : Command) (caller guild_id : string) : Interaction :=
  {| isCommand := true; command := c; user := caller; guild := guild_id |}.

Definition thirty_days : subscriptionSchema.t :=
  {| subscriptionSchema.guildId := "G1";
     subscriptionSchema.startDate := 1700000000000;
     subscriptionSchema.duration := 30 |}.

Definition db_G1 : DB := {| subscriptions := [thirty_days]; permissions := [] |}.

Definition db_empty : DB := {| subscriptions := []; permissions := [] |}.

(** G1 with one permission record for U2. *)
Definition db_G1_U2 : DB :=
  {| subscriptions := [thirty_days];
     permissions := [{| permissionSchema.guildId := "G1";
                        permissionSchema.userId := "U2";
                        permissionSchema.canAddTime := true;
                        permissionSchema.canRemoveTime := false |}] |}.

(** A clock reading one day into the subscription, and one a millisecond
    past its expiry. *)
Definition day_one : Z := 1700000000000 + msPerDay.
Definition just_expired : Z := expiry_instant thirty_days + 1.


(** Every store call but the subscription lookup throws. *)
Definition writes_down : StoreCall → bool :=
  λ c, match c with Subscription_findOne _ => false | _ => true end.

(** The three replies that report a failed store call. *)
Definition failure_reply (r : option Reply) : Prop :=
  r = Some (reply_ephemeral ERROR_MESSAGES.databaseError) ∨
  r = Some (reply_text "Failed to grant access.") ∨
  r = Some (reply_text "Failed to revoke access.").

(** What identifies a subscription record apart from its duration. *)
Definition subscription_key (s : subscriptionSchema.t) : string * Z :=
  (subscriptionSchema.guildId s, subscriptionSchema.startDate s).

(** U2 granted twice in G1, and a record of guild G2. *)
Definition db_G1_U2_twice : DB :=
  {| subscriptions := [thirty_days];
     permissions := [granted "G1" "U2" true false;
                     granted "G2" "U2" true true;
                     granted "G1" "U2" false true] |}.

(** A second guild, with a subscription of its own. *)
Definition ten_days_G2 : subscriptionSchema.t :=
  {| subscriptionSchema.guildId := "G2";
     subscriptionSchema.startDate := 1700000000000;
     subscriptionSchema.duration := 10 |}.

Definition db_two_guilds : DB :=
  {| subscriptions := [thirty_days; ten_days_G2];
     permissions := [granted "G2" "U2" true true] |}.

(** The thirty days after the owner's [extendtime days=-200000030]: the
    instant [startDate + duration] days lies before the first time value of
    a Date. *)
Definition long_gone : subscriptionSchema.t :=
  {| subscriptionSchema.guildId := "G1";
     subscriptionSchema.startDate := 1700000000000;
     subscriptionSchema.duration := -200000000 |}.

Definition db_long_gone : DB :=
  {| subscriptions := [long_gone]; permissions := [] |}.

(** The largest day count of which every smaller one is a double too. *)
Definition MAX_SAFE_INTEGER : Z := 2 ^ 53 - 1.

(** New York around the end of daylight saving on 5 November 2023 (06:00
    UTC): four hours behind UTC before, five after; a local time that occurs
    twice is taken with the offset before the change. *)
Definition New_York : TimeZone :=
  {| LocalTZA := λ t isUTC,
       if isUTC
       then if t <? 1699164000000 then -14400000 else -18000000
       else if t <? 1699149600000 then -14400000 else -18000000 |}.

(** Thirty days from noon of 20 October 2023 in New York, and a join at
    01:30 on 5 November 2023, the second time that hour comes round. *)
Definition from_october : subscriptionSchema.t :=
  {| subscriptionSchema.guildId := "G1";
     subscriptionSchema.startDate := 1697817600000;
     subscriptionSchema.duration := 30 |}.

Definition db_from_october : DB :=
  {| subscriptions := [from_october]; permissions := [] |}.

Definition second_half_past_one : Z := 1699165800000.

(** A subscription extended by a thousand million days: its expiry is past
    the last time value of a Date. *)
Definition out_of_range : subscriptionSchema.t :=
  {| subscriptionSchema.guildId := "G1";
     subscriptionSchema.startDate := 1700000000000;
     subscriptionSchema.duration := 1000000000 |}.

Definition db_out_of_range : DB :=
  {| subscriptions := [out_of_range]; permissions := [] |}.

(** * Properties *)

(** ** Evaluation lemmas for the gate *)

Lemma fetch_subscription_throws g throws w :
  throws (Subscription_findOne g) = true →
  fetch_subscription g throws w =
    (Ok (inl (reply_ephemeral ERROR_MESSAGES.databaseError)), after_lookup g w).
Proof.
  intros Hthrow.
  unfold fetch_subscription, try_catch, await, Subscription.findOne, store_call.
  now rewrite Hthrow.
Qed.


Lemma fetch_subscription_some g throws w s :
  throws (Subscription_findOne g) = false →
  stored_subscription g (db w) = Some s →
  fetch_subscription g throws w = (Ok (inr s), after_lookup g w).
Proof.
  intros Hok Hsome. unfold stored_subscription in Hsome.
  unfold fetch_subscription, try_catch, await, Subscription.findOne, store_call.
  now rewrite Hok, Hsome.
Qed.

Lemma subscription_gate_some g now throws w s :
  throws (Subscription_findOne g) = false →
  stored_subscription g (db w) = Some s →
  subscription_gate g now throws w = (Ok (check_expiry s now), after_lookup g w).
Proof.
  intros Hok Hsome. unfold subscription_gate, await.
  now rewrite (fetch_subscription_some _ _ _ _ Hok Hsome).
Qed.


(** Where the host zone has a fixed UTC offset, the expiry date the handler
    computes is the instant [startDate + duration] days, whenever both are
    time values of a Date, and an Invalid Date otherwise. *)
Lemma expiryDate_fixed_offset c doc :
  (∀ t isUTC, LocalTZA tz t isUTC = c) →
  representable (subscriptionSchema.startDate doc) →
  representable (expiry_instant doc) →
  expiryDate_of doc = Some (expiry_instant doc).
Proof.
  unfold representable, expiryDate_of, new_Date, setDate_plus, TimeClip,
    LocalTime, UTC, expiry_instant.
  intros Hfixed Hstart Hexpiry.
  rewrite (bool_decide_eq_true_2 _ Hstart), !Hfixed.
  rewrite bool_decide_eq_true_2; [f_equal; lia|].
  by replace (subscriptionSchema.startDate doc + c +
              subscriptionSchema.duration doc * msPerDay - c)
    with (subscriptionSchema.startDate doc +
          subscriptionSchema.duration doc * msPerDay) by lia.
Qed.

Lemma expiryDate_fixed_offset_inv c doc e :
  (∀ t isUTC, LocalTZA tz t isUTC = c) →
  expiryDate_of doc = Some e →
  e = expiry_instant doc.
Proof.
  unfold expiryDate_of, new_Date, setDate_plus, TimeClip, LocalTime, UTC,
    expiry_instant.
  intros Hfixed. destruct (bool_decide _); [|done]. rewrite !Hfixed.
  destruct (bool_decide _); [|done]. intros [= <-]. lia.
Qed.

Lemma expiryDate_fixed_offset_invalid c doc :
  (∀ t isUTC, LocalTZA tz t isUTC = c) →
  ¬ representable (expiry_instant doc) →
  expiryDate_of doc = None.
Proof.
  intros Hfixed Hout.
  destruct (expiryDate_of doc) as [e|] eqn:Hdate; [|done].
  pose proof (expiryDate_fixed_offset_inv c doc e Hfixed Hdate) as ->.
  revert Hdate.
  unfold expiryDate_of, new_Date, setDate_plus, TimeClip, LocalTime, UTC.
  destruct (bool_decide _); [|done]. rewrite !Hfixed.
  destruct (bool_decide _) eqn:Hclip; [|done].
  apply bool_decide_eq_true in Hclip. intros _. destruct Hout.
  unfold representable, expiry_instant.
  by replace (subscriptionSchema.startDate doc +
              subscriptionSchema.duration doc * msPerDay)
    with (subscriptionSchema.startDate doc + c +
          subscriptionSchema.duration doc * msPerDay - c) by lia.
Qed.

(** The handler's expiry test, once it fires, fires at every later clock
    reading. *)
Lemma Date_gt_later now now' e :
  Date_gt (Some now) e = true → now ≤ now' → Date_gt (Some now') e = true.
Proof.
  destruct e as [e|]; [|done]. simpl.
  intros Hgt%bool_decide_eq_true Hle. apply bool_decide_eq_true. lia.
Qed.

(** Expired and active, in terms of the expiry date: a subscription is
    expired when its expiry date is a valid Date that the clock has passed,
    and active when there is no such date. *)
Lemma expired_subscription_iff g d now index doc :
  expired_subscription g d now index doc ↔
  stored_subscription g d = Some (index, doc) ∧
  ∃ e, expiryDate_of doc = Some e ∧ e < now.
Proof.
  unfold expired_subscription. destruct (expiryDate_of doc) as [e|]; simpl.
  - rewrite bool_decide_eq_true. split.
    + intros [? ?]. eauto.
    + intros [? (e' & [= <-] & ?)]. done.
  - split; [by intros [_ ?]|]. by intros [_ (e & ? & _)].
Qed.

Lemma active_subscription_iff g d now index doc :
  active_subscription g d now index doc ↔
  stored_subscription g d = Some (index, doc) ∧
  ∀ e, expiryDate_of doc = Some e → now ≤ e.
Proof.
  unfold active_subscription. destruct (expiryDate_of doc) as [e|]; simpl.
  - rewrite bool_decide_eq_false. split.
    + intros [? ?]. split; [done|]. intros e' [= <-]. lia.
    + intros [? He]. split; [done|]. specialize (He e eq_refl). lia.
  - split; intros [? _]; by split.
Qed.

Lemma check_expiry_active index doc now :
  Date_gt (Some now) (expiryDate_of doc) = false →
  check_expiry (index, doc) now =
    inr {| subscription := (index, doc);
           currentDate := Some now;
           expiryDate := expiryDate_of doc |}.
Proof.
  intros Hquiet. unfold check_expiry. cbn [snd].
  fold (expiryDate_of doc). by rewrite Hquiet.
Qed.

Lemma check_expiry_expired index doc now :
  Date_gt (Some now) (expiryDate_of doc) = true →
  check_expiry (index, doc) now =
    inl (reply_ephemeral ERROR_MESSAGES.subscriptionExpired).
Proof.
  intros Hfires. unfold check_expiry. cbn [snd].
  fold (expiryDate_of doc). by rewrite Hfires.
Qed.

(** Whatever the gate lets through, no branch of the handler answers with
    the expiry message. *)
Lemma handle_command_not_expired owner i a throws w r w' :
  handle_command owner i a throws w = (Ok (Some r), w') →
  content r ≠ ERROR_MESSAGES.subscriptionExpired.
Proof.
  unfold handle_command, try_catch, await, resolve,
    Permission.create, Permission.findOneAndDelete, Subscription.save,
    store_call.
  destruct (command i), (subscription a) as [index doc]; simpl; intros H;
    repeat case_match; simplify_eq; simpl; discriminate.
Qed.

(** ** Evaluation lemmas for the handler *)

Lemma interactionCreate_denied owner i now throws d early w :
  isCommand i = true →
  subscription_gate (guild i) now throws (fresh d) = (Ok (inl early), w) →
  run (interactionCreate owner i now) throws d =
    {| reply := Some early; db_after := db w; store_calls := calls w |}.
Proof.
  intros Hcmd Hgate.
  unfold run, interactionCreate. rewrite Hcmd. simpl.
  unfold await at 1. now rewrite Hgate.
Qed.

Lemma interactionCreate_allowed owner i now throws d a w :
  isCommand i = true →
  subscription_gate (guild i) now throws (fresh d) = (Ok (inr a), w) →
  interactionCreate owner i now throws (fresh d) =
    handle_command owner i a throws w.
Proof.
  intros Hcmd Hgate.
  unfold interactionCreate. rewrite Hcmd. simpl.
  unfold await at 1. now rewrite Hgate.
Qed.

(** Under an active subscription whose lookup answers, the handler runs the
    branch of the command. *)
Lemma interactionCreate_active owner i now throws d index doc :
  isCommand i = true →
  throws (Subscription_findOne (guild i)) = false →
  active_subscription (guild i) d now index doc →
  interactionCreate owner i now throws (fresh d) =
    handle_command owner i
      {| subscription := (index, doc);
         currentDate := Some now;
         expiryDate := expiryDate_of doc |}
      throws (after_lookup (guild i) (fresh d)).
Proof.
  intros Hcmd Hok [Hstored Hquiet].
  apply interactionCreate_allowed; [done|].
  rewrite (subscription_gate_some _ _ _ (fresh d) _ Hok Hstored).
  now rewrite (check_expiry_active index doc now Hquiet).
Qed.

(** The gate lets the command through exactly when the expiry test does not
    fire. *)
Lemma allowed_iff_quiet g index doc now throws d :
  throws (Subscription_findOne g) = false →
  stored_subscription g d = Some (index, doc) →
  allowed (subscription_gate g now throws (fresh d)) ↔
  Date_gt (Some now) (expiryDate_of doc) = false.
Proof.
  intros Hok Hstored. unfold allowed.
  rewrite (subscription_gate_some _ _ _ (fresh d) _ Hok Hstored). cbn [fst].
  destruct (Date_gt (Some now) (expiryDate_of doc)) eqn:Htest.
  - rewrite (check_expiry_expired index doc now Htest). split; [|done].
    intros [a Ha]. discriminate Ha.
  - rewrite (check_expiry_active index doc now Htest). split; [done|].
    intros _. eauto.
Qed.

Lemma expired_reply owner i index doc now throws d :
  isCommand i = true →
  throws (Subscription_findOne (guild i)) = false →
  expired_subscription (guild i) d now index doc →
  denied_with ERROR_MESSAGES.subscriptionExpired
    (subscription_gate (guild i) now throws (fresh d)) ∧
  run (interactionCreate owner i now) throws d =
    {| reply := Some (reply_ephemeral ERROR_MESSAGES.subscriptionExpired);
       db_after := d;
       store_calls := [Subscription_findOne (guild i)] |}.
Proof.
  intros Hcmd Hok [Hstored Hfires].
  pose proof (subscription_gate_some _ now _ (fresh d) _ Hok Hstored) as Hgate.
  rewrite (check_expiry_expired index doc now Hfires) in Hgate.
  split.
  - unfold denied_with. now rewrite Hgate.
  - now rewrite (interactionCreate_denied _ _ _ _ _ _ _ Hcmd Hgate).
Qed.

Lemma active_reply_not_expired owner i index doc now throws d :
  isCommand i = true →
  throws (Subscription_findOne (guild i)) = false →
  active_subscription (guild i) d now index doc →
  reply (run (interactionCreate owner i now) throws d) ≠
    Some (reply_ephemeral ERROR_MESSAGES.subscriptionExpired).
Proof.
  intros Hcmd Hok Hactive. unfold run.
  rewrite (interactionCreate_active owner i now throws d index doc
             Hcmd Hok Hactive).
  destruct (handle_command owner i _ throws _) as [[[r|]|] w] eqn:Hbranch;
    simpl; try discriminate.
  intros [= ->].
  now apply (handle_command_not_expired _ _ _ _ _ _ _ Hbranch).
Qed.

(** ** C6: missing subscription and failed lookup *)


(** ** C5: the expiry boundary *)


(** ** C8: remaining days *)

Lemma Qceiling_quotient (x d : Z) :
  0 < d →
  ceiling_of_quotient (Qceiling (inject_Z x / inject_Z d)) x d.
Proof.
  intros Hd. unfold ceiling_of_quotient.
  destruct d as [|p|p]; try lia.
  unfold Qceiling, Qfloor, Qdiv, Qmult, Qinv, Qopp, inject_Z. simpl.
  rewrite Z.mul_1_r, Pos.mul_1_l.
  pose proof (Z.div_mod (- x) (Z.pos p) ltac:(lia)) as Hdm.
  pose proof (Z.mod_pos_bound (- x) (Z.pos p) ltac:(lia)) as Hb.
  nia.
Qed.

(** What [checksubscription] answers under an active subscription. *)
Lemma checksubscription_active owner i now throws d index doc :
  isCommand i = true →
  command i = checksubscription →
  throws (Subscription_findOne (guild i)) = false →
  active_subscription (guild i) d now index doc →
  run (interactionCreate owner i now) throws d =
    {| reply := Some (reply_text
         ("Subscription has " +:+
          Number_toString
            (remaining_days (Date_minus (expiryDate_of doc) (Some now))) +:+
          " days remaining."));
       db_after := d;
       store_calls := [Subscription_findOne (guild i)] |}.
Proof.
  intros Hcmd Hcheck Hok Hactive. unfold run.
  rewrite (interactionCreate_active owner i now throws d index doc
             Hcmd Hok Hactive).
  unfold handle_command. by rewrite Hcheck.
Qed.

(** C8, as the code has it.  For every subscription the lookup returns and
    the gate lets through: when its expiry date is a valid Date e (the start
    date moved by [duration] calendar days in the host's local time;
    [startDate + duration] days of 86,400,000 ms where the host zone has a
    fixed UTC offset), the checksubscription reply reads "Subscription has N
    days remaining." where N is the ceiling of (e - now) / (one day in ms),
    clamped below at 0; when its expiry date is an Invalid Date, the reply
    reads "Subscription has NaN days remaining.".  Nothing is written. *)
Theorem C8_remaining_days_reported
    (owner : option string) (i : Interaction) (index : nat)
    (doc : subscriptionSchema.t) (now : Z)
    (throws : StoreCall → bool) (d : DB) :
  isCommand i = true →
  command i = checksubscription →
  throws (Subscription_findOne (guild i)) = false →
  stored_subscription (guild i) d = Some (index, doc) →
  allowed (subscription_gate (guild i) now throws (fresh d)) →
  (∀ e : Z,
     expiryDate_of doc = Some e →
     ∃ q : Z,
       ceiling_of_quotient q (e - now) msPerDay ∧
       run (interactionCreate owner i now) throws d =
         {| reply := Some (reply_text
              ("Subscription has " +:+ pretty (Z.max 0 q) +:+
               " days remaining."));
            db_after := d;
            store_calls := [Subscription_findOne (guild i)] |}) ∧
  (expiryDate_of doc = None →
   run (interactionCreate owner i now) throws d =
     {| reply := Some (reply_text "Subscription has NaN days remaining.");
        db_after := d;
        store_calls := [Subscription_findOne (guild i)] |}) ∧
  (∀ c : Z,
     (∀ t isUTC, LocalTZA tz t isUTC = c) →
     representable (subscriptionSchema.startDate doc) →
     representable (expiry_instant doc) →
     expiryDate_of doc = Some (expiry_instant doc)).
Proof.
  intros Hcmd Hcheck Hok Hstored Hallowed.
  apply (allowed_iff_quiet _ index doc now throws d Hok Hstored) in Hallowed.
  pose proof (checksubscription_active owner i now throws d index doc
                Hcmd Hcheck Hok (conj Hstored Hallowed)) as Hrun.
  split_and!.
  - intros e Hdate.
    exists (Qceiling (inject_Z (e - now) / inject_Z msPerDay)). split.
    + now apply Qceiling_quotient.
    + rewrite Hrun, Hdate. reflexivity.
  - intros Hinvalid. rewrite Hrun, Hinvalid. reflexivity.
  - intros c. apply expiryDate_fixed_offset.
Qed.

(** ** The extension command *)

Lemma stored_after_save g d index doc doc' :
  stored_subscription g d = Some (index, doc) →
  subscriptionSchema.guildId doc' = g →
  stored_subscription g (with_subscription index doc' d) = Some (index, doc').
Proof.
  unfold stored_subscription, with_subscription. simpl.
  intros (Hat & _ & Hfirst)%list_find_Some Hguild.
  apply list_find_insert_Some. right. left.
  split_and!; try done.
  by eapply lookup_lt_Some.
Qed.

(** What [extendtime] does under an active subscription, case by case. *)
Lemma extendtime_active owner i additionalDays now throws d index doc :
  isCommand i = true →
  command i = extendtime additionalDays →
  throws (Subscription_findOne (guild i)) = false →
  active_subscription (guild i) d now index doc →
  let extended := Subscription.add_duration doc additionalDays in
  run (interactionCreate owner i now) throws d =
    if bool_decide (Some (user i) ≠ owner) then
      {| reply := Some (reply_ephemeral ERROR_MESSAGES.permissionDenied);
         db_after := d;
         store_calls := [Subscription_findOne (guild i)] |}
    else if throws (Subscription_save index extended) then
      {| reply := Some (reply_ephemeral ERROR_MESSAGES.databaseError);
         db_after := d;
         store_calls := [Subscription_findOne (guild i);
                         Subscription_save index extended] |}
    else
      {| reply := Some (reply_text
           ("Subscription extended by " +:+ pretty additionalDays +:+ " days."));
         db_after := with_subscription index extended d;
         store_calls := [Subscription_findOne (guild i);
                         Subscription_save index extended] |}.
Proof.
  intros Hcmd Hextend Hok Hactive extended.
  unfold run.
  rewrite (interactionCreate_active owner i now throws d index doc
             Hcmd Hok Hactive).
  unfold handle_command. rewrite Hextend.
  destruct (bool_decide (Some (user i) ≠ owner)); [reflexivity|].
  unfold try_catch, await, Subscription.save, store_call. simpl.
  fold extended.
  destruct (throws (Subscription_save index extended)); reflexivity.
Qed.

(** A denial by the gate leaves the database alone, whatever the command. *)
Lemma gate_keeps_database g now throws d r w :
  subscription_gate g now throws (fresh d) = (r, w) → db w = d.
Proof.
  unfold subscription_gate, fetch_subscription, try_catch, await, resolve,
    Subscription.findOne, store_call. simpl.
  destruct (throws (Subscription_findOne g)); [by intros [= <- <-]|].
  destruct (list_find _ _); by intros [= <- <-].
Qed.

Lemma gate_resolves g now throws w :
  ∃ v w', subscription_gate g now throws w = (Ok v, w').
Proof.
  unfold subscription_gate, fetch_subscription, try_catch, await, resolve,
    Subscription.findOne, store_call. simpl.
  destruct (throws (Subscription_findOne g)); [eauto|].
  destruct (list_find _ _); eauto.
Qed.

(** [extendtime] by anyone but the configured owner never writes. *)
Lemma extendtime_stranger_keeps_database owner i additionalDays now throws d :
  command i = extendtime additionalDays →
  Some (user i) ≠ owner →
  db_after (run (interactionCreate owner i now) throws d) = d.
Proof.
  intros Hextend Hstranger. unfold run, interactionCreate.
  destruct (isCommand i); [|reflexivity]. simpl. unfold await at 1.
  destruct (gate_resolves (guild i) now throws (fresh d)) as (v & w & Hgate).
  rewrite Hgate. pose proof (gate_keeps_database _ _ _ _ _ _ Hgate) as Hdb.
  destruct v as [early|a]; [done|].
  unfold handle_command. rewrite Hextend.
  by rewrite (bool_decide_eq_true_2 _ Hstranger).
Qed.

Lemma durationDays_stored g d index doc :
  stored_subscription g d = Some (index, doc) →
  durationDays g d = Some (subscriptionSchema.duration doc).
Proof. unfold durationDays. by intros ->. Qed.

(** An integer of magnitude at most 2^53 is a double: adding gives the exact
    sum whenever the sum is one. *)
Lemma round_to_double_safe z : safe_integer z → round_to_double z = z.
Proof.
  unfold safe_integer, round_to_double.
  change (2 ^ 53) with 9007199254740992. intros Hsafe.
  destruct (Z.ltb_spec (Z.abs z) 9007199254740992) as [_|Hle]; [done|].
  assert (z = 9007199254740992 ∨ z = -9007199254740992) as [-> | ->] by lia;
    reflexivity.
Qed.

Lemma Number_add_safe a b : safe_integer (a + b) → Number_add a b = a + b.
Proof. apply round_to_double_safe. Qed.

Lemma durationDays_after_save g d index doc additionalDays :
  stored_subscription g d = Some (index, doc) →
  durationDays g
    (with_subscription index (Subscription.add_duration doc additionalDays) d) =
    Some (Number_add (subscriptionSchema.duration doc) additionalDays).
Proof.
  intros Hstored.
  assert (Hguild : subscriptionSchema.guildId
                     (Subscription.add_duration doc additionalDays) = g).
  { apply list_find_Some in Hstored as (_ & Hguild & _). exact Hguild. }
  by rewrite (durationDays_stored _ _ _ _
                (stored_after_save _ _ _ _ _ Hstored Hguild)).
Qed.

(** ** C7: owner-only extension *)

(** C7, as the code has it.  While the guild's subscription is active and
    the lookup answers: a caller whose id differs from the configured owner
    id is denied with the permission-denied message, nothing is written and
    the duration is unchanged; the caller whose id is the configured owner
    id, when the save does not throw, gets "Subscription extended by N
    days." and the stored duration becomes the JavaScript sum duration + N,
    which is exactly N more whenever that sum is at most 2^53 in magnitude
    and the nearest double otherwise.  In every state, an extendtime by a
    caller other than the owner leaves the database as it was. *)
Theorem C7_owner_only_extension
    (owner_id : string) (i : Interaction) (N : Z) (now : Z)
    (throws : StoreCall → bool) (d : DB) (index : nat)
    (doc : subscriptionSchema.t) :
  isCommand i = true →
  command i = extendtime N →
  throws (Subscription_findOne (guild i)) = false →
  active_subscription (guild i) d now index doc →
  (user i ≠ owner_id →
   run (interactionCreate (Some owner_id) i now) throws d =
     {| reply := Some (reply_ephemeral ERROR_MESSAGES.permissionDenied);
        db_after := d;
        store_calls := [Subscription_findOne (guild i)] |}) ∧
  (user i = owner_id →
   throws (Subscription_save index (Subscription.add_duration doc N)) = false →
   reply (run (interactionCreate (Some owner_id) i now) throws d) =
     Some (reply_text ("Subscription extended by " +:+ pretty N +:+ " days.")) ∧
   durationDays (guild i) d = Some (subscriptionSchema.duration doc) ∧
   durationDays (guild i)
     (db_after (run (interactionCreate (Some owner_id) i now) throws d)) =
     Some (Number_add (subscriptionSchema.duration doc) N) ∧
   (safe_integer (subscriptionSchema.duration doc + N) →
    durationDays (guild i)
      (db_after (run (interactionCreate (Some owner_id) i now) throws d)) =
      Some (subscriptionSchema.duration doc + N))) ∧
  (user i ≠ owner_id →
   ∀ now' throws' d',
     db_after (run (interactionCreate (Some owner_id) i now') throws' d') = d').
Proof.
  intros Hcmd Hextend Hok Hactive.
  pose proof (extendtime_active (Some owner_id) i N now throws d index doc
                Hcmd Hextend Hok Hactive) as Hrun. simpl in Hrun.
  destruct Hactive as (Hstored & _).
  split_and!.
  - intros Hstranger. rewrite Hrun.
    rewrite bool_decide_eq_true_2; [reflexivity|congruence].
  - intros Howner Hsave. rewrite Hrun.
    rewrite bool_decide_eq_false_2 by (intros Hne; apply Hne; congruence).
    rewrite Hsave. simpl. split_and!; [reflexivity| | |].
    + by apply (durationDays_stored _ _ index).
    + by apply durationDays_after_save.
    + intros Hsafe. rewrite <- (Number_add_safe _ _ Hsafe).
      by apply durationDays_after_save.
  - intros Hstranger now' throws' d'.
    apply (extendtime_stranger_keeps_database _ _ N); [done|congruence].
Qed.

(** ** C3: extension by a non-positive number of days *)

(** No run of the handler answers with the invalid-parameters message. *)
Lemma gate_denial_messages g now throws w early w' :
  subscription_gate g now throws w = (Ok (inl early), w') →
  early = reply_ephemeral ERROR_MESSAGES.databaseError ∨
  early = reply_ephemeral ERROR_MESSAGES.subscriptionNotFound ∨
  early = reply_ephemeral ERROR_MESSAGES.subscriptionExpired.
Proof.
  unfold subscription_gate, fetch_subscription, try_catch, await, resolve,
    Subscription.findOne, store_call.
  destruct (throws (Subscription_findOne g)); [intros [= <- _]; auto|].
  destruct (list_find _ _) as [s|]; [|intros [= <- _]; auto].
  unfold check_expiry. destruct (Date_gt _ _); intros [= <- _]; auto.
Qed.

Lemma handle_command_not_invalidParameters owner i a throws w r w' :
  handle_command owner i a throws w = (Ok (Some r), w') →
  content r ≠ ERROR_MESSAGES.invalidParameters.
Proof.
  unfold handle_command, try_catch, await, resolve,
    Permission.create, Permission.findOneAndDelete, Subscription.save,
    store_call.
  destruct (command i), (subscription a) as [index doc]; simpl; intros H;
    repeat case_match; simplify_eq; simpl; discriminate.
Qed.

Lemma never_invalidParameters owner i now throws d r :
  reply (run (interactionCreate owner i now) throws d) = Some r →
  content r ≠ ERROR_MESSAGES.invalidParameters.
Proof.
  unfold run, interactionCreate.
  destruct (isCommand i); simpl; [|discriminate].
  unfold await at 1.
  destruct (gate_resolves (guild i) now throws (fresh d)) as (v & w & Hgate).
  rewrite Hgate. destruct v as [early|a].
  - simpl. intros [= <-].
    destruct (gate_denial_messages _ _ _ _ _ _ Hgate) as [->|[->| ->]];
      discriminate.
  - destruct (handle_command owner i a throws w) as [[[r'|]|] w'] eqn:Hbranch;
      simpl; try discriminate.
    intros [= <-].
    exact (handle_command_not_invalidParameters _ _ _ _ _ _ _ Hbranch).
Qed.

(** C3, as the code has it.  The extension command does not validate its
    day count.  For the configured owner under an active subscription and
    any additionalDays <= 0, the save is attempted and the reply is never
    the invalid-parameters message; when the save does not throw the reply
    is "Subscription extended by N days." and the stored duration becomes
    the JavaScript sum duration + additionalDays (the same for 0, smaller
    for a negative count; exactly duration + additionalDays whenever that
    is at most 2^53 in magnitude); when it throws, the reply is the
    database-error message and the database is unchanged. *)
Theorem C3_extension_not_validated
    (owner_id : string) (i : Interaction) (additionalDays : Z) (now : Z)
    (throws : StoreCall → bool) (d : DB) (index : nat)
    (doc : subscriptionSchema.t) :
  isCommand i = true →
  command i = extendtime additionalDays →
  user i = owner_id →
  additionalDays ≤ 0 →
  throws (Subscription_findOne (guild i)) = false →
  active_subscription (guild i) d now index doc →
  let out := run (interactionCreate (Some owner_id) i now) throws d in
  let extended := Subscription.add_duration doc additionalDays in
  store_calls out =
    [Subscription_findOne (guild i); Subscription_save index extended] ∧
  reply out ≠ Some (reply_ephemeral ERROR_MESSAGES.invalidParameters) ∧
  (throws (Subscription_save index extended) = false →
   reply out = Some (reply_text
     ("Subscription extended by " +:+ pretty additionalDays +:+ " days.")) ∧
   durationDays (guild i) (db_after out) =
     Some (Number_add (subscriptionSchema.duration doc) additionalDays) ∧
   (safe_integer (subscriptionSchema.duration doc + additionalDays) →
    durationDays (guild i) (db_after out) =
      Some (subscriptionSchema.duration doc + additionalDays))) ∧
  (throws (Subscription_save index extended) = true →
   reply out = Some (reply_ephemeral ERROR_MESSAGES.databaseError) ∧
   db_after out = d).
Proof.
  intros Hcmd Hextend Howner _ Hok Hactive out extended.
  pose proof (extendtime_active (Some owner_id) i additionalDays now throws d
                index doc Hcmd Hextend Hok Hactive) as Hrun.
  simpl in Hrun. fold out extended in Hrun.
  rewrite bool_decide_eq_false_2 in Hrun
    by (intros Hne; apply Hne; congruence).
  destruct Hactive as (Hstored & _).
  split_and!.
  - rewrite Hrun.
    by destruct (throws (Subscription_save index extended)).
  - intros Hreply.
    by apply (never_invalidParameters _ _ _ _ _ _ Hreply).
  - intros Hsave. rewrite Hrun, Hsave. simpl.
    split_and!; [reflexivity| |].
    + by apply durationDays_after_save.
    + intros Hsafe. rewrite <- (Number_add_safe _ _ Hsafe).
      by apply durationDays_after_save.
  - intros Hsave. by rewrite Hrun, Hsave.
Qed.

(** ** Granting and revoking *)

Lemma grantaccess_active owner i u canAdd canRemove now throws d index doc :
  isCommand i = true →
  command i = grantaccess u canAdd canRemove →
  throws (Subscription_findOne (guild i)) = false →
  active_subscription (guild i) d now index doc →
  let record := granted (guild i) u canAdd canRemove in
  run (interactionCreate owner i now) throws d =
    if throws (Permission_create record) then
      {| reply := Some (reply_text "Failed to grant access.");
         db_after := d;
         store_calls := [Subscription_findOne (guild i);
                         Permission_create record] |}
    else
      {| reply := Some (reply_text "Access granted successfully.");
         db_after := with_permission record d;
         store_calls := [Subscription_findOne (guild i);
                         Permission_create record] |}.
Proof.
  intros Hcmd Hgrant Hok Hactive record.
  unfold run.
  rewrite (interactionCreate_active owner i now throws d index doc
             Hcmd Hok Hactive).
  unfold handle_command. rewrite Hgrant.
  unfold try_catch, await, Permission.create, store_call. simpl.
  fold (granted (guild i) u canAdd canRemove). fold record.
  destruct (throws (Permission_create record)); reflexivity.
Qed.

Lemma revokeaccess_active owner i u now throws d index doc :
  isCommand i = true →
  command i = revokeaccess u →
  throws (Subscription_findOne (guild i)) = false →
  active_subscription (guild i) d now index doc →
  run (interactionCreate owner i now) throws d =
    if throws (Permission_findOneAndDelete (guild i) u) then
      {| reply := Some (reply_text "Failed to revoke access.");
         db_after := d;
         store_calls := [Subscription_findOne (guild i);
                         Permission_findOneAndDelete (guild i) u] |}
    else
      {| reply := Some (reply_text "Access revoked successfully.");
         db_after := without_first_permission (guild i) u d;
         store_calls := [Subscription_findOne (guild i);
                         Permission_findOneAndDelete (guild i) u] |}.
Proof.
  intros Hcmd Hrevoke Hok Hactive.
  unfold run.
  rewrite (interactionCreate_active owner i now throws d index doc
             Hcmd Hok Hactive).
  unfold handle_command. rewrite Hrevoke.
  unfold try_catch, await, Permission.findOneAndDelete, store_call,
    without_first_permission. simpl.
  destruct (throws (Permission_findOneAndDelete (guild i) u)); [reflexivity|].
  by destruct (list_find _ _) as [[j p]|].
Qed.

(** Neither branch ever answers with the permission-denied message. *)
Lemma grant_revoke_never_permissionDenied owner i now throws d r :
  (∃ u canAdd canRemove, command i = grantaccess u canAdd canRemove) ∨
  (∃ u, command i = revokeaccess u) →
  reply (run (interactionCreate owner i now) throws d) = Some r →
  content r ≠ ERROR_MESSAGES.permissionDenied.
Proof.
  intros Hbranch. unfold run, interactionCreate.
  destruct (isCommand i); simpl; [|discriminate].
  unfold await at 1.
  destruct (gate_resolves (guild i) now throws (fresh d)) as (v & w & Hgate).
  rewrite Hgate. destruct v as [early|a].
  - simpl. intros [= <-].
    destruct (gate_denial_messages _ _ _ _ _ _ Hgate) as [->|[->| ->]];
      discriminate.
  - unfold handle_command, try_catch, await, resolve, Permission.create,
      Permission.findOneAndDelete, store_call.
    destruct Hbranch as [(u & canAdd & canRemove & ->)|(u & ->)]; simpl;
      intros H; repeat case_match; simplify_eq; simpl in *; simplify_eq;
      discriminate.
Qed.

(** ** C1: who may grant and revoke *)

(** C1, as the code has it.  grantaccess and revokeaccess do not look at
    the caller: for every caller, owner or not, under an active subscription
    whose lookup answers, a grantaccess whose insert does not throw replies
    "Access granted successfully." and appends the record, and a
    revokeaccess whose delete does not throw replies "Access revoked
    successfully." and removes the first record of the pair if there is
    one.  In no state does either command answer with the permission-denied
    message. *)
Theorem C1_grant_revoke_open_to_every_caller
    (owner : option string) (i : Interaction) (now : Z)
    (throws : StoreCall → bool) (d : DB) (index : nat)
    (doc : subscriptionSchema.t) :
  isCommand i = true →
  throws (Subscription_findOne (guild i)) = false →
  active_subscription (guild i) d now index doc →
  (∀ u canAdd canRemove,
     command i = grantaccess u canAdd canRemove →
     throws (Permission_create (granted (guild i) u canAdd canRemove)) = false →
     run (interactionCreate owner i now) throws d =
       {| reply := Some (reply_text "Access granted successfully.");
          db_after := with_permission (granted (guild i) u canAdd canRemove) d;
          store_calls :=
            [Subscription_findOne (guild i);
             Permission_create (granted (guild i) u canAdd canRemove)] |}) ∧
  (∀ u,
     command i = revokeaccess u →
     throws (Permission_findOneAndDelete (guild i) u) = false →
     run (interactionCreate owner i now) throws d =
       {| reply := Some (reply_text "Access revoked successfully.");
          db_after := without_first_permission (guild i) u d;
          store_calls :=
            [Subscription_findOne (guild i);
             Permission_findOneAndDelete (guild i) u] |}) ∧
  (∀ now' throws' d' r,
     (∃ u canAdd canRemove, command i = grantaccess u canAdd canRemove) ∨
     (∃ u, command i = revokeaccess u) →
     reply (run (interactionCreate owner i now') throws' d') = Some r →
     content r ≠ ERROR_MESSAGES.permissionDenied).
Proof.
  intros Hcmd Hok Hactive. split_and!.
  - intros u canAdd canRemove Hgrant Hcreate.
    pose proof (grantaccess_active owner i u canAdd canRemove now throws d
                  index doc Hcmd Hgrant Hok Hactive) as Hrun.
    simpl in Hrun. by rewrite Hrun, Hcreate.
  - intros u Hrevoke Hdelete.
    rewrite (revokeaccess_active owner i u now throws d index doc
               Hcmd Hrevoke Hok Hactive).
    by rewrite Hdelete.
  - intros now' throws' d' r Hbranch.
    by apply grant_revoke_never_permissionDenied.
Qed.

(** ** C2: a grant inserts *)

Lemma permission_records_with_permission g u p d :
  Permission.filter_pair g u p →
  permission_records g u (with_permission p d) = permission_records g u d ++ [p].
Proof.
  intros Hp. unfold permission_records, with_permission. simpl.
  rewrite filter_app, filter_cons, filter_nil.
  by rewrite decide_True.
Qed.

Lemma active_with_permission g d now index doc p :
  active_subscription g d now index doc →
  active_subscription g (with_permission p d) now index doc.
Proof. done. Qed.

(** C2, as the code has it.  A grant is an insert, never a replacement:
    every grantaccess that goes through (active subscription, lookup and
    insert not throwing) leaves the earlier records of the pair as they
    were and appends one more.  So grant(g,u,true,false) followed by
    grant(g,u,false,true), starting without a record for the pair, leaves
    two records, the first with canAddTime only and the second with
    canRemoveTime only. *)
Theorem C2_grant_appends_a_record
    (owner : option string) (g u caller caller' : string) (now now' : Z)
    (d : DB) (index : nat) (doc : subscriptionSchema.t) :
  active_subscription g d now index doc →
  active_subscription g d now' index doc →
  let grant canAdd canRemove who when_ d0 :=
    db_after (run (interactionCreate owner
                     (slash (grantaccess u canAdd canRemove) who g) when_)
                  healthy d0) in
  (∀ canAdd canRemove,
     permission_records g u (grant canAdd canRemove caller now d) =
       permission_records g u d ++ [granted g u canAdd canRemove]) ∧
  (permission_records g u d = [] →
   permission_records g u
     (grant false true caller' now' (grant true false caller now d)) =
     [granted g u true false; granted g u false true]).
Proof.
  intros Hactive Hlater grant.
  assert (Hgrant : ∀ canAdd canRemove who when_ d0,
            active_subscription g d0 when_ index doc →
            grant canAdd canRemove who when_ d0 =
              with_permission (granted g u canAdd canRemove) d0).
  { intros canAdd canRemove who when_ d0 Hactive0. unfold grant.
    pose proof (grantaccess_active owner
                  (slash (grantaccess u canAdd canRemove) who g)
                  u canAdd canRemove when_ healthy d0 index doc
                  eq_refl eq_refl eq_refl Hactive0) as Hrun.
    simpl in Hrun. by rewrite Hrun. }
  split.
  - intros canAdd canRemove. rewrite (Hgrant _ _ _ _ _ Hactive).
    by apply permission_records_with_permission.
  - intros Hnone.
    assert (Hactive' : active_subscription g
              (with_permission (granted g u true false) d) now' index doc)
      by (by apply active_with_permission).
    rewrite (Hgrant _ _ _ _ _ Hactive), (Hgrant _ _ _ _ _ Hactive').
    rewrite !permission_records_with_permission by done.
    by rewrite Hnone.
Qed.

(** ** C4: joining a guild *)

Lemma run_guildCreate_eq g now throws d :
  run_guildCreate g now throws d =
    if throws (Subscription_create (bootstrap_record g now)) then d
    else {| subscriptions := subscriptions d ++ [bootstrap_record g now];
            permissions := permissions d |}.
Proof.
  unfold run_guildCreate, guildCreate, try_catch, await, resolve,
    Subscription.create, store_call, bootstrap_record. simpl.
  by destruct (throws _).
Qed.

Lemma subscription_count_join g now d :
  subscription_count g (run_guildCreate g now healthy d) =
    S (subscription_count g d).
Proof.
  rewrite run_guildCreate_eq. unfold healthy, subscription_count. simpl.
  rewrite filter_app, filter_cons, filter_nil, decide_True by done.
  rewrite length_app. simpl. lia.
Qed.

(** C4, as the code has it.  A join notification does not look for an
    existing record: whenever the insert does not throw it appends a
    Subscription with duration 0 and the clock reading as start date, so
    the guild has one record more than before; when the insert throws the
    database is unchanged.  After any sequence of join notifications for
    the same guild, delivered while the store answers, the guild has as
    many more records as there were notifications. *)
Theorem C4_every_join_inserts
    (g : string) (now : Z) (throws : StoreCall → bool) (d : DB) :
  (throws (Subscription_create (bootstrap_record g now)) = false →
   subscriptions (run_guildCreate g now throws d) =
     subscriptions d ++ [bootstrap_record g now] ∧
   permissions (run_guildCreate g now throws d) = permissions d ∧
   subscription_count g (run_guildCreate g now throws d) =
     S (subscription_count g d)) ∧
  (throws (Subscription_create (bootstrap_record g now)) = true →
   run_guildCreate g now throws d = d) ∧
  (∀ nows : list Z,
     subscription_count g (run_joins g nows d) =
       (subscription_count g d + length nows)%nat).
Proof.
  split_and!.
  - intros Hok. rewrite run_guildCreate_eq, Hok. simpl.
    split_and!; [reflexivity..|].
    unfold subscription_count. simpl.
    rewrite filter_app, filter_cons, filter_nil, decide_True by done.
    rewrite length_app. simpl. lia.
  - intros Hthrow. by rewrite run_guildCreate_eq, Hthrow.
  - intros nows. revert d. unfold run_joins.
    induction nows as [|t nows IH]; intros d; simpl; [lia|].
    rewrite IH, subscription_count_join. lia.
Qed.

(** ** C9: the permission-gated commands *)

Lemma hasPermission_eq g u throws d :
  throws (Permission_findOne g u) = false →
  fst (hasPermission g u throws (fresh d)) =
    Ok match list_find (Permission.filter_pair g u) (permissions d) with
       | Some (_, p) =>
           permissionSchema.canAddTime p || permissionSchema.canRemoveTime p
       | None => false
       end.
Proof.
  intros Hok.
  unfold hasPermission, await, resolve, Permission.findOne, store_call.
  rewrite Hok. simpl. by destruct (list_find _ _) as [[j p]|].
Qed.

(** C9, as the code has it.  The branches of addtime, resetplaytime and
    removeplaytime are empty: under an active subscription whose lookup
    answers, each of them sends no reply, leaves the database as it was and
    issues no store call besides the subscription lookup, whatever
    Permission records exist; no permission is looked up and nothing is
    denied.  The helper hasPermission, which the handler never calls, is
    true exactly when the first Permission record of the pair has
    canAddTime or canRemoveTime set; it does not tell adding from
    removing. *)
Theorem C9_gated_commands_are_empty_branches
    (owner : option string) (i : Interaction) (now : Z)
    (throws : StoreCall → bool) (d : DB) (index : nat)
    (doc : subscriptionSchema.t) :
  isCommand i = true →
  permission_gated (command i) = true →
  throws (Subscription_findOne (guild i)) = false →
  active_subscription (guild i) d now index doc →
  run (interactionCreate owner i now) throws d =
    {| reply := None;
       db_after := d;
       store_calls := [Subscription_findOne (guild i)] |} ∧
  (throws (Permission_findOne (guild i) (user i)) = false →
   fst (hasPermission (guild i) (user i) throws (fresh d)) =
     Ok match list_find (Permission.filter_pair (guild i) (user i))
                (permissions d) with
        | Some (_, p) =>
            permissionSchema.canAddTime p || permissionSchema.canRemoveTime p
        | None => false
        end).
Proof.
  intros Hcmd Hgated Hok Hactive. split.
  - unfold run.
    rewrite (interactionCreate_active owner i now throws d index doc
               Hcmd Hok Hactive).
    unfold handle_command. by destruct (command i).
  - apply hasPermission_eq.
Qed.

(** ** C10: an expired subscription stays expired *)

(** Rewriting a record that the filter rejects, by one it rejects too, does
    not change what the filter finds first. *)
Lemma list_find_insert_rejected {A} (P : A → Prop) `{∀ x, Decision (P x)}
    (l : list A) (j : nat) (x y : A) :
  l !! j = Some x → ¬ P x → ¬ P y →
  list_find P (<[j := y]> l) = list_find P l.
Proof.
  revert j. induction l as [|z l IH]; intros j Hj Hx Hy; [done|].
  destruct j as [|j]; simpl in *.
  - simplify_eq. by rewrite !decide_False.
  - destruct (decide (P z)); [done|]. by rewrite (IH j).
Qed.

Lemma gate_allowed_inv g now throws d a w :
  subscription_gate g now throws (fresh d) = (Ok (inr a), w) →
  db w = d ∧
  stored_subscription g d = Some (subscription a) ∧
  check_expiry (subscription a) now = inr a.
Proof.
  intros Hgate. split; [by eapply gate_keeps_database|].
  revert Hgate.
  unfold subscription_gate, fetch_subscription, try_catch, await, resolve,
    Subscription.findOne, store_call, stored_subscription. simpl.
  destruct (throws (Subscription_findOne g)); [discriminate|].
  destruct (list_find _ _) as [found|]; [|discriminate].
  intros [= Hcheck _].
  assert (Hfound : subscription a = found).
  { unfold check_expiry in Hcheck.
    destruct (Date_gt _ _) in Hcheck; [discriminate|].
    injection Hcheck as <-. reflexivity. }
  by rewrite Hfound.
Qed.

(** The only write a command branch makes to the Subscription collection is
    the save of the record the gate handed over, with a changed duration. *)
Lemma handle_command_subscriptions owner i a throws w r w' :
  handle_command owner i a throws w = (r, w') →
  subscriptions (db w') = subscriptions (db w) ∨
  ∃ N, subscriptions (db w') =
         <[fst (subscription a) :=
             Subscription.add_duration (snd (subscription a)) N]>
           (subscriptions (db w)).
Proof.
  unfold handle_command, try_catch, await, resolve, Permission.create,
    Permission.findOneAndDelete, Subscription.save, store_call.
  destruct (command i), (subscription a) as [index doc]; simpl; intros H;
    repeat case_match; simplify_eq; simpl; eauto.
Qed.

Lemma interaction_keeps_expired_record owner g index doc i now throws d :
  expired_subscription g d now index doc →
  stored_subscription g (db_after (run (interactionCreate owner i now) throws d))
    = Some (index, doc).
Proof.
  intros (Hstored & Hfires).
  unfold run, interactionCreate.
  destruct (isCommand i); [|done]. simpl. unfold await at 1.
  destruct (gate_resolves (guild i) now throws (fresh d)) as (v & w & Hgate).
  rewrite Hgate. destruct v as [early|a].
  { simpl. by rewrite (gate_keeps_database _ _ _ _ _ _ Hgate). }
  destruct (gate_allowed_inv _ _ _ _ _ _ Hgate) as (Hdb & Hfound & Hcheck).
  destruct (decide (guild i = g)) as [Hsame|Hother].
  { subst g. rewrite Hstored in Hfound. injection Hfound as Hfound.
    rewrite <- Hfound in Hcheck.
    by rewrite (check_expiry_expired index doc now Hfires) in Hcheck. }
  destruct (handle_command owner i a throws w) as [r w'] eqn:Hbranch.
  assert (Hsubs : stored_subscription g (db w') = Some (index, doc)).
  { unfold stored_subscription in *.
    destruct (handle_command_subscriptions _ _ _ _ _ _ _ Hbranch)
      as [->|[N ->]]; rewrite Hdb; [done|].
    destruct (subscription a) as [j found] eqn:Ha. simpl.
    apply list_find_Some in Hfound as (Hj & Hguild & _).
    rewrite (list_find_insert_rejected _ _ j found); [done..| |].
    - unfold Subscription.filter_guild in *. congruence.
    - unfold Subscription.filter_guild in *. simpl. congruence. }
  by destruct r.
Qed.

Lemma command_step_keeps_expired owner g index doc s s' :
  expired_subscription g (store s) (clock s) index doc →
  command_step owner s s' →
  expired_subscription g (store s') (clock s') index doc.
Proof.
  intros Hexpired Hstep. destruct Hstep as [s i now throws Hclock]. simpl.
  assert (Hnow : expired_subscription g (store s) now index doc).
  { destruct Hexpired as (? & Hfires). split; [done|].
    by apply (Date_gt_later (clock s)). }
  split; [|by destruct Hnow].
  by apply interaction_keeps_expired_record.
Qed.

(** C10, as the code has it.  The expiry check comes before every command
    branch.  Once a guild's subscription is expired in the handler's sense
    (its expiry date, the start date moved by [duration] calendar days in
    the host's local time, is a valid Date and the clock is strictly past
    it), it stays so along every sequence of command-handling steps: the
    lookup keeps returning the same record, with the same duration, and the
    clock only moves on.  In every state reached,
    an extendtime for that guild, by the configured owner or anyone else,
    is answered with the expiry message whenever the lookup answers; the
    lookup is the only store call (the owner check and the save are not
    reached) and the database is unchanged, whatever the store does. *)
Theorem C10_expired_subscription_is_a_trap
    (owner : option string) (g : string) (index : nat)
    (doc : subscriptionSchema.t) (s s' : BotState) :
  expired_subscription g (store s) (clock s) index doc →
  rtc (command_step owner) s s' →
  expired_subscription g (store s') (clock s') index doc ∧
  durationDays g (store s') = durationDays g (store s) ∧
  ∀ (caller : string) (N now : Z) (throws : StoreCall → bool),
    clock s' ≤ now →
    db_after (run (interactionCreate owner (slash (extendtime N) caller g) now)
                  throws (store s')) = store s' ∧
    (throws (Subscription_findOne g) = false →
     run (interactionCreate owner (slash (extendtime N) caller g) now)
         throws (store s') =
       {| reply := Some (reply_ephemeral ERROR_MESSAGES.subscriptionExpired);
          db_after := store s';
          store_calls := [Subscription_findOne g] |}).
Proof.
  intros Hexpired Hsteps.
  assert (Htrap : expired_subscription g (store s') (clock s') index doc).
  { induction Hsteps as [|s1 s2 s3 Hstep _ IH]; [done|].
    apply IH. by eapply command_step_keeps_expired. }
  split; [exact Htrap|]. split.
  { destruct Hexpired as (Hs & _), Htrap as (Hs' & _).
    by rewrite (durationDays_stored _ _ _ _ Hs),
               (durationDays_stored _ _ _ _ Hs'). }
  intros caller N now throws Hclock.
  assert (Hnow : expired_subscription g (store s') now index doc).
  { destruct Htrap as (? & Hfires). split; [done|].
    by apply (Date_gt_later (clock s')). }
  assert (Hdenied : throws (Subscription_findOne g) = false →
            run (interactionCreate owner (slash (extendtime N) caller g) now)
                throws (store s') =
              {| reply := Some (reply_ephemeral
                                  ERROR_MESSAGES.subscriptionExpired);
                 db_after := store s';
                 store_calls := [Subscription_findOne g] |}).
  { intros Hok.
    exact (proj2 (expired_reply owner (slash (extendtime N) caller g) index doc
                    now throws (store s') eq_refl Hok Hnow)). }
  split; [|exact Hdenied].
  destruct (throws (Subscription_findOne g)) eqn:Hlookup.
  - pose proof (Hfetch := fetch_subscription_throws g throws
                               (fresh (store s')) Hlookup).
    rewrite (interactionCreate_denied owner (slash (extendtime N) caller g) now
               throws (store s')
               (reply_ephemeral ERROR_MESSAGES.databaseError)
               (after_lookup g (fresh (store s'))) eq_refl); [done|].
    simpl. unfold subscription_gate, await. by rewrite Hfetch.
  - by rewrite Hdenied.
Qed.

(** * Further properties of the handlers *)

(** ** What a handler run can and cannot do *)

Lemma gate_calls g now throws d r w :
  subscription_gate g now throws (fresh d) = (r, w) →
  calls w = [Subscription_findOne g].
Proof.
  unfold subscription_gate, fetch_subscription, try_catch, await, resolve,
    Subscription.findOne, store_call. simpl.
  destruct (throws (Subscription_findOne g)); [by intros [= <- <-]|].
  destruct (list_find _ _); by intros [= <- <-].
Qed.

Lemma gate_lookup_thrown g now throws d r w :
  throws (Subscription_findOne g) = true →
  subscription_gate g now throws (fresh d) = (r, w) →
  r = Ok (inl (reply_ephemeral ERROR_MESSAGES.databaseError)).
Proof.
  intros Hthrow. unfold subscription_gate, await.
  rewrite (fetch_subscription_throws _ _ (fresh d) Hthrow).
  by intros [= <- _].
Qed.

(** A command branch resolves; it issues no store call, or exactly one, and
    when that one throws the database is as it was and the reply reports the
    failure. *)
Lemma handle_command_shape owner i a throws w :
  ∃ r w', handle_command owner i a throws w = (Ok r, w') ∧
    (w' = w ∨
     ∃ c, calls w' = calls w ++ [c] ∧
          (throws c = true → db w' = db w ∧ failure_reply r)).
Proof.
  destruct (handle_command owner i a throws w) as [r w'] eqn:Hbranch.
  revert Hbranch.
  unfold handle_command, try_catch, await, resolve, Permission.create,
    Permission.findOneAndDelete, Subscription.save, store_call, failure_reply.
  destruct (command i), (subscription a) as [index doc]; simpl; intros H;
    repeat case_match; simplify_eq; simpl;
    eexists _, _; (split; [reflexivity|]); eauto 10;
    right; eexists; (split; [reflexivity|]); simpl; intros ?; try congruence;
    eauto 10.
Qed.

Lemma run_interaction_shape owner i now throws d :
  isCommand i = true →
  ∃ v w r w',
    subscription_gate (guild i) now throws (fresh d) = (Ok v, w) ∧
    db w = d ∧ calls w = [Subscription_findOne (guild i)] ∧
    interactionCreate owner i now throws (fresh d) = (Ok r, w') ∧
    match v with
    | inl early => r = Some early ∧ w' = w
    | inr a => handle_command owner i a throws w = (Ok r, w')
    end.
Proof.
  intros Hcmd.
  destruct (gate_resolves (guild i) now throws (fresh d)) as (v & w & Hgate).
  pose proof (gate_keeps_database _ _ _ _ _ _ Hgate) as Hdb.
  pose proof (gate_calls _ _ _ _ _ _ Hgate) as Hcalls.
  unfold interactionCreate. rewrite Hcmd. simpl. unfold await at 1.
  rewrite Hgate. destruct v as [early|a].
  - by exists (inl early), w, (Some early), w.
  - destruct (handle_command_shape owner i a throws w) as (r & w' & Hbranch & _).
    by exists (inr a), w, r, w'.
Qed.


(** X2.  Whenever a store call of a handler run throws, the database is
    left exactly as it was and the reply is one of the three failure
    messages (database error, failed to grant, failed to revoke). *)
Theorem failed_store_call_changes_nothing owner i now throws d c :
  c ∈ store_calls (run (interactionCreate owner i now) throws d) →
  throws c = true →
  db_after (run (interactionCreate owner i now) throws d) = d ∧
  failure_reply (reply (run (interactionCreate owner i now) throws d)).
Proof.
  intros Hin Hthrow. unfold run in *.
  destruct (isCommand i) eqn:Hcmd.
  2: { unfold interactionCreate in Hin. rewrite Hcmd in Hin. simpl in Hin.
       by apply elem_of_nil in Hin. }
  destruct (run_interaction_shape owner i now throws d Hcmd)
    as (v & w & r & w' & Hgate & Hdb & Hcalls & Hrun & Hv).
  rewrite Hrun in *. simpl in *.
  destruct v as [early|a].
  - destruct Hv as [-> ->]. rewrite Hcalls in Hin.
    apply list_elem_of_singleton in Hin as ->.
    pose proof (gate_lookup_thrown _ _ _ _ _ _ Hthrow Hgate) as [= ->].
    split; [done|]. by left.
  - assert (Hlookup : throws (Subscription_findOne (guild i)) = false).
    { destruct (throws (Subscription_findOne (guild i))) eqn:Hl; [|done].
      by pose proof (gate_lookup_thrown _ _ _ _ _ _ Hl Hgate). }
    destruct (handle_command_shape owner i a throws w)
      as (r0 & w0 & Hbranch & Hshape).
    rewrite Hv in Hbranch. injection Hbranch as <- <-.
    destruct Hshape as [->|(c' & Hc & Hfail)].
    + rewrite Hcalls in Hin. apply list_elem_of_singleton in Hin as ->.
      congruence.
    + rewrite Hc, Hcalls in Hin. simpl in Hin.
      apply elem_of_cons in Hin as [->|Hin]; [congruence|].
      apply list_elem_of_singleton in Hin as ->.
      destruct (Hfail Hthrow) as [Hsame Hreply]. by rewrite Hsame.
Qed.

(** ** Permission records: list facts *)

Lemma filter_delete_found {A} (P : A → Prop) `{∀ x, Decision (P x)}
    (l : list A) (j : nat) (p : A) :
  list_find P l = Some (j, p) →
  filter P (delete j l) = tail (filter P l).
Proof.
  revert j. induction l as [|x l IH]; intros j; [done|].
  simpl. rewrite filter_cons. destruct (decide (P x)) as [Hx|Hx].
  - by intros [= <- <-].
  - destruct (list_find P l) as [[k q]|] eqn:Hfind; [|done].
    intros [= <- <-]. simpl. rewrite filter_cons, decide_False by done.
    by apply IH.
Qed.

Lemma filter_delete_rejected {A} (Q : A → Prop) `{∀ x, Decision (Q x)}
    (l : list A) (j : nat) (p : A) :
  l !! j = Some p → ¬ Q p → filter Q (delete j l) = filter Q l.
Proof.
  revert j. induction l as [|x l IH]; intros j Hj Hp; [done|].
  destruct j as [|j]; simpl in *.
  - simplify_eq. by rewrite filter_cons, decide_False.
  - rewrite !filter_cons. rewrite (IH j) by done. done.
Qed.

Lemma no_records_not_found g u d :
  permission_records g u d = [] ↔
  list_find (Permission.filter_pair g u) (permissions d) = None.
Proof.
  unfold permission_records. rewrite list_find_None. split.
  - intros Hnil. apply Forall_forall. intros p Hin Hp.
    exact (filter_nil_not_elem_of _ _ _ Hnil Hp Hin).
  - intros Hall. induction Hall as [|p l Hp _ IH]; [done|].
    by rewrite filter_cons, decide_False.
Qed.

Lemma without_first_permission_none g u d :
  permission_records g u d = [] → without_first_permission g u d = d.
Proof.
  intros Hnone%no_records_not_found. unfold without_first_permission.
  by rewrite Hnone.
Qed.

Lemma without_first_permission_records g u d :
  permission_records g u (without_first_permission g u d) =
    tail (permission_records g u d).
Proof.
  unfold without_first_permission, permission_records.
  destruct (list_find _ _) as [[j p]|] eqn:Hfind; simpl.
  - by apply (filter_delete_found _ _ j p).
  - apply no_records_not_found in Hfind. unfold permission_records in Hfind.
    by rewrite Hfind.
Qed.

Lemma without_first_permission_others g u g' u' d :
  (g', u') ≠ (g, u) →
  permission_records g' u' (without_first_permission g u d) =
    permission_records g' u' d.
Proof.
  intros Hne. unfold without_first_permission, permission_records.
  destruct (list_find _ _) as [[j p]|] eqn:Hfind; [|done]. simpl.
  apply list_find_Some in Hfind as (Hj & [Hg Hu] & _).
  apply (filter_delete_rejected _ _ j p Hj).
  intros [Hg' Hu']. apply Hne. congruence.
Qed.

Lemma with_permission_others g u g' u' canAdd canRemove d :
  (g', u') ≠ (g, u) →
  permission_records g' u' (with_permission (granted g u canAdd canRemove) d) =
    permission_records g' u' d.
Proof.
  intros Hne. unfold permission_records, with_permission. simpl.
  rewrite filter_app, filter_cons, filter_nil, decide_False.
  - by rewrite app_nil_r.
  - intros [Hg Hu]. simpl in *. apply Hne. congruence.
Qed.

Lemma grant_then_revoke_database g u canAdd canRemove d :
  permission_records g u d = [] →
  without_first_permission g u (with_permission (granted g u canAdd canRemove) d)
    = d.
Proof.
  intros Hnone%no_records_not_found.
  unfold without_first_permission, with_permission. simpl.
  rewrite (list_find_app_r _ _ _ Hnone). simpl.
  rewrite decide_True by done. simpl.
  replace (0 + length (permissions d))%nat with (length (permissions d) + 0)%nat
    by lia.
  rewrite delete_middle, app_nil_r. by destruct d.
Qed.

(** ** Properties of granting and revoking *)

(** X3.  Revoking a (guild, user) pair that has no permission record is
    not an error: under an active subscription the reply is "Access revoked
    successfully." and the database is unchanged. *)
Theorem revoke_without_record_changes_nothing
    owner i u now throws d index doc :
  isCommand i = true →
  command i = revokeaccess u →
  throws (Subscription_findOne (guild i)) = false →
  throws (Permission_findOneAndDelete (guild i) u) = false →
  active_subscription (guild i) d now index doc →
  permission_records (guild i) u d = [] →
  run (interactionCreate owner i now) throws d =
    {| reply := Some (reply_text "Access revoked successfully.");
       db_after := d;
       store_calls := [Subscription_findOne (guild i);
                       Permission_findOneAndDelete (guild i) u] |}.
Proof.
  intros Hcmd Hrevoke Hok Hdelete Hactive Hnone.
  rewrite (revokeaccess_active owner i u now throws d index doc
             Hcmd Hrevoke Hok Hactive), Hdelete.
  by rewrite (without_first_permission_none _ _ _ Hnone).
Qed.

(** X4.  A revokeaccess that goes through removes exactly the first
    permission record of its (guild, user) pair: the pair's later records
    stay (a pair granted twice keeps its second record), the records of
    every other pair stay, and no subscription is touched. *)
Theorem revoke_removes_one_record
    owner i u now throws d index doc :
  isCommand i = true →
  command i = revokeaccess u →
  throws (Subscription_findOne (guild i)) = false →
  throws (Permission_findOneAndDelete (guild i) u) = false →
  active_subscription (guild i) d now index doc →
  let after := db_after (run (interactionCreate owner i now) throws d) in
  permission_records (guild i) u after =
    tail (permission_records (guild i) u d) ∧
  (∀ g' u', (g', u') ≠ (guild i, u) →
     permission_records g' u' after = permission_records g' u' d) ∧
  subscriptions after = subscriptions d.
Proof.
  intros Hcmd Hrevoke Hok Hdelete Hactive after. unfold after.
  rewrite (revokeaccess_active owner i u now throws d index doc
             Hcmd Hrevoke Hok Hactive), Hdelete. simpl.
  split_and!.
  - apply without_first_permission_records.
  - intros g' u' Hne. by apply without_first_permission_others.
  - unfold without_first_permission. by destruct (list_find _ _) as [[j p]|].
Qed.

(** X5.  Granting a pair that had no record and then revoking it gives
    the database back as it was; in between the pair has exactly the granted
    record. *)
Theorem grant_then_revoke_restores
    owner g u canAdd canRemove granter revoker now now' d index doc :
  active_subscription g d now index doc →
  active_subscription g d now' index doc →
  permission_records g u d = [] →
  let granted_db :=
    db_after (run (interactionCreate owner
                     (slash (grantaccess u canAdd canRemove) granter g) now)
                  healthy d) in
  permission_records g u granted_db = [granted g u canAdd canRemove] ∧
  db_after (run (interactionCreate owner (slash (revokeaccess u) revoker g) now')
                healthy granted_db) = d.
Proof.
  intros Hactive Hlater Hnone granted_db.
  assert (Hgranted : granted_db =
            with_permission (granted g u canAdd canRemove) d).
  { unfold granted_db.
    pose proof (grantaccess_active owner
                  (slash (grantaccess u canAdd canRemove) granter g)
                  u canAdd canRemove now healthy d index doc
                  eq_refl eq_refl eq_refl Hactive) as Hrun.
    simpl in Hrun. by rewrite Hrun. }
  rewrite Hgranted. split.
  - rewrite permission_records_with_permission by done. by rewrite Hnone.
  - assert (Hactive' : active_subscription g
              (with_permission (granted g u canAdd canRemove) d) now' index doc)
      by (by apply active_with_permission).
    rewrite (revokeaccess_active owner (slash (revokeaccess u) revoker g) u now'
               healthy _ index doc eq_refl eq_refl eq_refl Hactive').
    simpl. by apply grant_then_revoke_database.
Qed.

(** X6.  Once a pair has a permission record, a further grantaccess for
    it does not change what hasPermission answers: hasPermission reads the
    first record, and a grant only appends. *)
Theorem regrant_keeps_hasPermission
    owner i u canAdd canRemove now throws d index doc :
  isCommand i = true →
  command i = grantaccess u canAdd canRemove →
  throws (Subscription_findOne (guild i)) = false →
  active_subscription (guild i) d now index doc →
  permission_records (guild i) u d ≠ [] →
  ∀ throws',
    fst (hasPermission (guild i) u throws'
           (fresh (db_after (run (interactionCreate owner i now) throws d)))) =
    fst (hasPermission (guild i) u throws' (fresh d)).
Proof.
  intros Hcmd Hgrant Hok Hactive Hsome throws'.
  pose proof (grantaccess_active owner i u canAdd canRemove now throws d
                index doc Hcmd Hgrant Hok Hactive) as Hrun.
  simpl in Hrun. rewrite Hrun.
  destruct (throws (Permission_create _)); simpl; [done|].
  destruct (list_find (Permission.filter_pair (guild i) u) (permissions d))
    as [[j p]|] eqn:Hfind.
  2: { by apply no_records_not_found in Hfind. }
  unfold hasPermission, await, resolve, Permission.findOne, store_call,
    with_permission. simpl.
  destruct (throws' _); [done|]. simpl.
  by rewrite (list_find_app_l _ _ _ _ _ Hfind), Hfind.
Qed.

(** The writes a command branch makes to the Permission collection. *)
Lemma handle_command_permissions owner i a throws w r w' :
  handle_command owner i a throws w = (r, w') →
  permissions (db w') = permissions (db w) ∨
  (∃ u canAdd canRemove,
     command i = grantaccess u canAdd canRemove ∧
     permissions (db w') =
       permissions (with_permission (granted (guild i) u canAdd canRemove)
                      (db w))) ∨
  (∃ u, command i = revokeaccess u ∧
        permissions (db w') =
          permissions (without_first_permission (guild i) u (db w))).
Proof.
  unfold handle_command, try_catch, await, resolve, Permission.create,
    Permission.findOneAndDelete, Subscription.save, store_call,
    without_first_permission.
  destruct (command i) eqn:Hc, (subscription a) as [index doc]; simpl;
    intros H; repeat case_match; simplify_eq; simpl; eauto 10.
  right; right. eexists. split; [reflexivity|].
  match goal with Hfind : list_find _ _ = _ |- _ => by rewrite Hfind end.
Qed.

(** X7.  In every state and whatever the store does, a command never
    changes the permission records of a guild other than the one it was
    issued in, and a command other than grantaccess and revokeaccess leaves
    the whole Permission collection as it was. *)
Theorem permissions_of_other_guilds_untouched owner i now throws d :
  let after := db_after (run (interactionCreate owner i now) throws d) in
  (∀ g' u', g' ≠ guild i →
     permission_records g' u' after = permission_records g' u' d) ∧
  ((∀ u canAdd canRemove, command i ≠ grantaccess u canAdd canRemove) →
   (∀ u, command i ≠ revokeaccess u) →
   permissions after = permissions d).
Proof.
  intros after. unfold after, run.
  destruct (isCommand i) eqn:Hcmd.
  2: { unfold interactionCreate. rewrite Hcmd. simpl. by split. }
  destruct (run_interaction_shape owner i now throws d Hcmd)
    as (v & w & r & w' & Hgate & Hdb & Hcalls & Hrun & Hv).
  rewrite Hrun. simpl.
  destruct v as [early|a].
  { destruct Hv as [_ ->]. rewrite Hdb. by split. }
  destruct (handle_command_permissions _ _ _ _ _ _ _ Hv)
    as [Hsame|[(u & canAdd & canRemove & Hc & Hperm)|(u & Hc & Hperm)]];
    rewrite Hdb in *.
  - split; [|done]. intros g' u' _. unfold permission_records.
    by rewrite Hsame.
  - split; [|intros Hno _; by destruct (Hno u canAdd canRemove)].
    intros g' u' Hne.
    rewrite <- (with_permission_others (guild i) u g' u' canAdd canRemove d)
      by congruence.
    unfold permission_records. by rewrite Hperm.
  - split; [|intros _ Hno; by destruct (Hno u)].
    intros g' u' Hne.
    rewrite <- (without_first_permission_others (guild i) u g' u' d)
      by congruence.
    unfold permission_records. by rewrite Hperm.
Qed.

(** ** Subscription records under commands *)

(** The one write to the Subscription collection: the configured owner's
    extendtime saving the record the gate found. *)
Lemma handle_command_saves owner i a throws w r w' :
  handle_command owner i a throws w = (r, w') →
  subscriptions (db w') = subscriptions (db w) ∨
  ∃ N, command i = extendtime N ∧ Some (user i) = owner ∧
       subscriptions (db w') =
         <[fst (subscription a) :=
             Subscription.add_duration (snd (subscription a)) N]>
           (subscriptions (db w)).
Proof.
  unfold handle_command, try_catch, await, resolve, Permission.create,
    Permission.findOneAndDelete, Subscription.save, store_call.
  destruct (command i) eqn:Hc, (subscription a) as [index doc]; simpl;
    intros H; repeat case_match; simplify_eq; simpl; eauto.
  right. eexists. split; [reflexivity|]. split; [|reflexivity].
  match goal with
  | Hd : bool_decide _ = false |- _ =>
      apply bool_decide_eq_false in Hd; by apply dec_stable in Hd
  end.
Qed.

(** X8.  In every state and whatever the store does, a command never
    creates, deletes, re-keys or re-dates a subscription record (guild ids
    and start dates stay as they were, position by position); it never
    changes the record the lookup returns for another guild; and unless it
    is an extendtime by the configured owner it leaves the whole
    Subscription collection as it was. *)
Theorem commands_keep_subscription_records owner i now throws d :
  let after := db_after (run (interactionCreate owner i now) throws d) in
  subscription_key <$> subscriptions after =
    subscription_key <$> subscriptions d ∧
  (∀ g', g' ≠ guild i →
     stored_subscription g' after = stored_subscription g' d) ∧
  ((∀ N, command i ≠ extendtime N) ∨ Some (user i) ≠ owner →
   subscriptions after = subscriptions d).
Proof.
  intros after. unfold after, run.
  destruct (isCommand i) eqn:Hcmd.
  2: { unfold interactionCreate. rewrite Hcmd. simpl. by split_and!. }
  destruct (run_interaction_shape owner i now throws d Hcmd)
    as (v & w & r & w' & Hgate & Hdb & Hcalls & Hrun & Hv).
  rewrite Hrun. simpl.
  destruct v as [early|a].
  { destruct Hv as [_ ->]. rewrite Hdb. by split_and!. }
  destruct (gate_allowed_inv _ _ _ _ _ _ Hgate) as (_ & Hfound & _).
  destruct (handle_command_saves _ _ _ _ _ _ _ Hv)
    as [Hsame|(N & Hc & Howner & Hsaved)]; rewrite Hdb in *.
  { unfold stored_subscription. rewrite Hsame. by split_and!. }
  destruct (subscription a) as [j found]. simpl in Hsaved.
  apply list_find_Some in Hfound as (Hj & Hguild & _).
  split_and!.
  - rewrite Hsaved, list_fmap_insert.
    apply list_insert_id. by rewrite list_lookup_fmap, Hj.
  - intros g' Hne. unfold stored_subscription. rewrite Hsaved.
    apply (list_find_insert_rejected _ _ j found); [done| |].
    + unfold Subscription.filter_guild in *. congruence.
    + unfold Subscription.filter_guild in *. simpl. congruence.
  - intros [Hno|Hstranger]; [by destruct (Hno N)|done].
Qed.

(** X9.  Two extensions by the owner add up while the sums are at most
    2^53 in magnitude: extending by N and then by M (the subscription still
    active in between) gives the same database as one save with
    duration + N + M. *)
Theorem extensions_add_up
    (owner_id g : string) (N M now now' : Z) (d : DB) (index : nat)
    (doc : subscriptionSchema.t) :
  active_subscription g d now index doc →
  Date_gt (Some now') (expiryDate_of (Subscription.add_duration doc N)) = false →
  safe_integer (subscriptionSchema.duration doc + N) →
  safe_integer (subscriptionSchema.duration doc + N + M) →
  let extend days when_ d0 :=
    db_after (run (interactionCreate (Some owner_id)
                     (slash (extendtime days) owner_id g) when_)
                  healthy d0) in
  extend M now' (extend N now d) =
    with_subscription index (Subscription.add_duration doc (N + M)) d ∧
  durationDays g (extend M now' (extend N now d)) =
    Some (subscriptionSchema.duration doc + N + M).
Proof.
  intros Hactive Hquiet HsafeN HsafeM extend.
  assert (Hextend : ∀ days when_ d0 doc0,
            active_subscription g d0 when_ index doc0 →
            extend days when_ d0 =
              with_subscription index (Subscription.add_duration doc0 days) d0).
  { intros days when_ d0 doc0 Hactive0. unfold extend.
    pose proof (extendtime_active (Some owner_id)
                  (slash (extendtime days) owner_id g) days when_ healthy d0
                  index doc0 eq_refl eq_refl eq_refl Hactive0) as Hrun.
    simpl in Hrun. rewrite Hrun.
    by rewrite bool_decide_eq_false_2 by (intros Hne; by apply Hne). }
  assert (Hguild : subscriptionSchema.guildId doc = g).
  { destruct Hactive as (Hstored & _).
    by apply list_find_Some in Hstored as (_ & ? & _). }
  assert (Hactive' : active_subscription g
            (with_subscription index (Subscription.add_duration doc N) d)
            now' index (Subscription.add_duration doc N)).
  { destruct Hactive as (Hstored & _).
    split; [|done]. by apply (stored_after_save _ _ _ doc). }
  rewrite (Hextend N now d doc Hactive).
  rewrite (Hextend M now' _ _ Hactive').
  assert (HsafeNM : safe_integer (subscriptionSchema.duration doc + (N + M))).
  { by replace (subscriptionSchema.duration doc + (N + M))
      with (subscriptionSchema.duration doc + N + M) by lia. }
  assert (Hsum : Subscription.add_duration
                   (Subscription.add_duration doc N) M =
                 Subscription.add_duration doc (N + M)).
  { unfold Subscription.add_duration. simpl. f_equal.
    rewrite (Number_add_safe _ N HsafeN).
    rewrite (Number_add_safe _ M HsafeM).
    rewrite (Number_add_safe _ (N + M) HsafeNM). lia. }
  rewrite Hsum.
  assert (Hdb : with_subscription index (Subscription.add_duration doc (N + M))
                  (with_subscription index (Subscription.add_duration doc N) d)
                = with_subscription index
                    (Subscription.add_duration doc (N + M)) d).
  { unfold with_subscription. simpl. by rewrite list_insert_insert_eq. }
  rewrite Hdb. split; [done|].
  destruct Hactive as (Hstored & _).
  rewrite (durationDays_after_save _ _ _ _ _ Hstored). f_equal.
  rewrite (Number_add_safe _ (N + M) HsafeNM). lia.
Qed.

(** X10.  When BOT_CREATOR_ID is not set, [user.id !== BOT_CREATOR_ID]
    holds for every caller: an extendtime never changes the database, and
    under an active subscription every caller gets the permission-denied
    message. *)
Theorem unset_owner_blocks_extension i N :
  command i = extendtime N →
  (∀ now throws d,
     db_after (run (interactionCreate None i now) throws d) = d) ∧
  (∀ now throws d index doc,
     isCommand i = true →
     throws (Subscription_findOne (guild i)) = false →
     active_subscription (guild i) d now index doc →
     reply (run (interactionCreate None i now) throws d) =
       Some (reply_ephemeral ERROR_MESSAGES.permissionDenied)).
Proof.
  intros Hextend. split.
  - intros now throws d.
    by apply (extendtime_stranger_keeps_database None i N).
  - intros now throws d index doc Hcmd Hok Hactive.
    pose proof (extendtime_active None i N now throws d index doc
                  Hcmd Hextend Hok Hactive) as Hrun.
    simpl in Hrun. by rewrite Hrun.
Qed.

(** ** Joining and the first command *)

Lemma stored_after_first_join g t0 throws d :
  stored_subscription g d = None →
  throws (Subscription_create (bootstrap_record g t0)) = false →
  stored_subscription g (run_guildCreate g t0 throws d) =
    Some (length (subscriptions d), bootstrap_record g t0).
Proof.
  intros Hnone Hok. rewrite run_guildCreate_eq, Hok.
  unfold stored_subscription in *. simpl.
  rewrite (list_find_app_r _ _ _ Hnone). simpl.
  by rewrite decide_True.
Qed.

Lemma msPerDay_pos : 0 < msPerDay.
Proof. reflexivity. Qed.

Lemma expiryDate_of_bootstrap g t0 :
  representable t0 →
  UTC tz (LocalTime tz t0) = t0 →
  expiryDate_of (bootstrap_record g t0) = Some t0.
Proof.
  intros Hrep Hback.
  unfold expiryDate_of, bootstrap_record, new_Date, setDate_plus, TimeClip.
  simpl. rewrite (bool_decide_eq_true_2 _ Hrep).
  rewrite Z.add_0_r, Hback. by rewrite (bool_decide_eq_true_2 _ Hrep).
Qed.

(** X11.  A guild without a record that joins at clock reading t0, where
    the host zone reads the local time of t0 back as t0 itself (as every
    zone does outside an hour that comes twice), gets a subscription that is
    still let through at t0, where checksubscription reports 0 days, and is
    expired at every later clock reading: every command, extendtime by the
    owner included, is answered with the expiry message and writes
    nothing. *)
Theorem joined_guild_expires_at_once g t0 throws_join d :
  stored_subscription g d = None →
  throws_join (Subscription_create (bootstrap_record g t0)) = false →
  representable t0 →
  UTC tz (LocalTime tz t0) = t0 →
  let joined := run_guildCreate g t0 throws_join d in
  (∀ owner caller throws,
     throws (Subscription_findOne g) = false →
     run (interactionCreate owner (slash checksubscription caller g) t0)
         throws joined =
       {| reply := Some (reply_text "Subscription has 0 days remaining.");
          db_after := joined;
          store_calls := [Subscription_findOne g] |}) ∧
  (∀ owner c caller now throws,
     throws (Subscription_findOne g) = false →
     t0 < now →
     run (interactionCreate owner (slash c caller g) now) throws joined =
       {| reply := Some (reply_ephemeral ERROR_MESSAGES.subscriptionExpired);
          db_after := joined;
          store_calls := [Subscription_findOne g] |}).
Proof.
  intros Hnone Hjoin Ht0 Hback joined.
  pose proof (stored_after_first_join g t0 throws_join d Hnone Hjoin)
    as Hstored. fold joined in Hstored.
  pose proof (expiryDate_of_bootstrap g t0 Ht0 Hback) as Hdate.
  split.
  - intros owner caller throws Hok.
    assert (Hactive : active_subscription g joined t0
                        (length (subscriptions d)) (bootstrap_record g t0)).
    { split; [done|]. rewrite Hdate. simpl. apply bool_decide_eq_false. lia. }
    rewrite (checksubscription_active owner (slash checksubscription caller g)
               t0 throws joined _ _ eq_refl eq_refl Hok Hactive).
    rewrite Hdate. simpl. by rewrite Z.sub_diag.
  - intros owner c caller now throws Hok Hlater.
    apply (expired_reply owner (slash c caller g)
             (length (subscriptions d)) (bootstrap_record g t0)
             now throws joined eq_refl Hok).
    split; [done|]. rewrite Hdate. simpl. by apply bool_decide_eq_true.
Qed.

(** X12.  A join notification, for any guild and whether or not its
    insert throws, never changes the record the lookup returns for a guild
    that already has one; a subscription that is expired stays expired
    across it. *)
Theorem rejoin_keeps_the_first_record g g' now now' throws d index doc :
  stored_subscription g' d = Some (index, doc) →
  stored_subscription g' (run_guildCreate g now throws d) = Some (index, doc) ∧
  (expired_subscription g' d now' index doc →
   expired_subscription g' (run_guildCreate g now throws d) now' index doc).
Proof.
  intros Hstored.
  assert (Hkept : stored_subscription g' (run_guildCreate g now throws d) =
                    Some (index, doc)).
  { rewrite run_guildCreate_eq. destruct (throws _); [done|].
    unfold stored_subscription in *. simpl.
    by apply list_find_app_l. }
  split; [done|]. intros (_ & ?). by split.
Qed.

(** ** The reported number of days *)

(** X13.  Under an active subscription whose expiry date is a valid Date
    e, the number checksubscription reports is never negative and is 0
    exactly when now is e; where the host zone has a fixed UTC offset it is,
    once the start date has passed, at most the stored duration. *)
Theorem remaining_days_bounds owner i now throws d index doc e :
  isCommand i = true →
  command i = checksubscription →
  throws (Subscription_findOne (guild i)) = false →
  active_subscription (guild i) d now index doc →
  expiryDate_of doc = Some e →
  ∃ n : Z,
    reply (run (interactionCreate owner i now) throws d) =
      Some (reply_text ("Subscription has " +:+ pretty n +:+ " days remaining.")) ∧
    0 ≤ n ∧
    (n = 0 ↔ now = e) ∧
    (∀ c : Z,
       (∀ t isUTC, LocalTZA tz t isUTC = c) →
       subscriptionSchema.startDate doc ≤ now →
       n ≤ subscriptionSchema.duration doc).
Proof.
  intros Hcmd Hcheck Hok Hactive Hdate.
  rewrite (checksubscription_active owner i now throws d index doc
             Hcmd Hcheck Hok Hactive), Hdate.
  destruct Hactive as (_ & Hquiet). rewrite Hdate in Hquiet. simpl in Hquiet.
  apply bool_decide_eq_false in Hquiet.
  eexists. split; [reflexivity|].
  pose proof (Qceiling_quotient (e - now) msPerDay msPerDay_pos) as Hq.
  pose proof msPerDay_pos as Hday.
  unfold ceiling_of_quotient in Hq.
  set (q := Qceiling _) in *. clearbody q.
  split_and!; [lia| |].
  - split; intros; nia.
  - intros c Hfixed Hstarted.
    pose proof (expiryDate_fixed_offset_inv c doc e Hfixed Hdate) as He.
    unfold expiry_instant in He. nia.
Qed.

Lemma reported_days_shift x N :
  0 ≤ x → 0 ≤ x + N * msPerDay →
  Z.max 0 (Qceiling (inject_Z (x + N * msPerDay) / inject_Z msPerDay)) =
    Z.max 0 (Qceiling (inject_Z x / inject_Z msPerDay)) + N.
Proof.
  intros Hx Hx'.
  pose proof msPerDay_pos as Hday.
  pose proof (Qceiling_quotient x msPerDay Hday) as Hq.
  pose proof (Qceiling_quotient (x + N * msPerDay) msPerDay Hday) as Hq'.
  unfold ceiling_of_quotient in *.
  generalize dependent (Qceiling (inject_Z (x + N * msPerDay) / inject_Z msPerDay)).
  generalize dependent (Qceiling (inject_Z x / inject_Z msPerDay)).
  intros q Hq q' Hq'. nia.
Qed.

(** X14.  Where the host zone has a fixed UTC offset: when the owner
    extends an active subscription by N days, the new duration being at
    most 2^53 in magnitude, and the subscription is still active afterwards
    (both expiry dates valid Dates), checksubscription at the same clock
    reading reports exactly N days more than before. *)
Theorem extension_adds_to_reported_days
    (owner_id caller g : string) (c N now : Z) (d : DB) (index : nat)
    (doc : subscriptionSchema.t) :
  (∀ t isUTC, LocalTZA tz t isUTC = c) →
  active_subscription g d now index doc →
  representable (subscriptionSchema.startDate doc) →
  representable (expiry_instant doc) →
  safe_integer (subscriptionSchema.duration doc + N) →
  representable (expiry_instant (Subscription.add_duration doc N)) →
  now ≤ expiry_instant (Subscription.add_duration doc N) →
  let extended :=
    db_after (run (interactionCreate (Some owner_id)
                     (slash (extendtime N) owner_id g) now) healthy d) in
  let report d0 :=
    reply (run (interactionCreate (Some owner_id)
                  (slash checksubscription caller g) now) healthy d0) in
  ∃ n : Z,
    report d =
      Some (reply_text ("Subscription has " +:+ pretty n +:+ " days remaining.")) ∧
    report extended =
      Some (reply_text
        ("Subscription has " +:+ pretty (n + N) +:+ " days remaining.")).
Proof.
  intros Hfixed Hactive Hstart Hrep Hsafe Hrep' Hle' extended report.
  assert (Hextended : extended =
            with_subscription index (Subscription.add_duration doc N) d).
  { unfold extended.
    pose proof (extendtime_active (Some owner_id)
                  (slash (extendtime N) owner_id g) N now healthy d
                  index doc eq_refl eq_refl eq_refl Hactive) as Hrun.
    simpl in Hrun. rewrite Hrun.
    by rewrite bool_decide_eq_false_2 by (intros Hne; by apply Hne). }
  assert (Hguild : subscriptionSchema.guildId doc = g).
  { destruct Hactive as (Hstored & _).
    by apply list_find_Some in Hstored as (_ & ? & _). }
  pose proof (expiryDate_fixed_offset c doc Hfixed Hstart Hrep) as Hdate.
  pose proof (expiryDate_fixed_offset c (Subscription.add_duration doc N)
                Hfixed Hstart Hrep') as Hdate'.
  assert (Hactive' : active_subscription g extended now index
                       (Subscription.add_duration doc N)).
  { rewrite Hextended. destruct Hactive as (Hstored & _). split.
    - by apply (stored_after_save _ _ _ doc).
    - rewrite Hdate'. simpl. apply bool_decide_eq_false. lia. }
  assert (Hshift : expiry_instant (Subscription.add_duration doc N) - now =
                     (expiry_instant doc - now) + N * msPerDay).
  { unfold expiry_instant, Subscription.add_duration. simpl.
    rewrite (Number_add_safe _ _ Hsafe). lia. }
  unfold report.
  rewrite (checksubscription_active (Some owner_id)
             (slash checksubscription caller g) now healthy d index doc
             eq_refl eq_refl eq_refl Hactive).
  rewrite (checksubscription_active (Some owner_id)
             (slash checksubscription caller g) now healthy extended index _
             eq_refl eq_refl eq_refl Hactive').
  rewrite Hdate, Hdate'.
  destruct Hactive as (_ & Hquiet). rewrite Hdate in Hquiet. simpl in Hquiet.
  apply bool_decide_eq_false in Hquiet.
  eexists. split; [reflexivity|].
  cbn [reply Date_minus remaining_days Number_toString].
  rewrite Hshift, reported_days_shift; [done|lia|lia].
Qed.

(** ** Dates out of range *)

(** X15.  A subscription whose expiry date is an Invalid Date never
    expires: the comparison with it is false, so the gate lets every
    command through at every clock reading, and checksubscription reports
    "NaN days".  Where the host zone has a fixed UTC offset, that is the
    case of every subscription whose [startDate + duration] days lies
    outside the range of a Date (farther than 8.64e15 ms from the
    epoch). *)
Theorem unrepresentable_expiry_never_expires
    owner i now throws d index doc :
  isCommand i = true →
  throws (Subscription_findOne (guild i)) = false →
  stored_subscription (guild i) d = Some (index, doc) →
  expiryDate_of doc = None →
  allowed (subscription_gate (guild i) now throws (fresh d)) ∧
  reply (run (interactionCreate owner i now) throws d) ≠
    Some (reply_ephemeral ERROR_MESSAGES.subscriptionExpired) ∧
  (command i = checksubscription →
   reply (run (interactionCreate owner i now) throws d) =
     Some (reply_text "Subscription has NaN days remaining.")) ∧
  (∀ c : Z,
     (∀ t isUTC, LocalTZA tz t isUTC = c) →
     ∀ doc' : subscriptionSchema.t,
       ¬ representable (expiry_instant doc') → expiryDate_of doc' = None).
Proof.
  intros Hcmd Hok Hstored Hinvalid.
  assert (Hactive : active_subscription (guild i) d now index doc).
  { split; [done|]. by rewrite Hinvalid. }
  split_and!.
  - apply (allowed_iff_quiet _ index doc now throws d Hok Hstored).
    by destruct Hactive.
  - by apply (active_reply_not_expired _ _ index doc).
  - intros Hc.
    rewrite (checksubscription_active owner i now throws d index doc
               Hcmd Hc Hok Hactive).
    by rewrite Hinvalid.
  - intros c Hfixed doc'. by apply (expiryDate_fixed_offset_invalid c).
Qed.

End Host.

(** * The properties on sample data

    The theorems above hold on every host time zone.  Here each is applied
    on a host in UTC to the sample data, and the cases in which a statement
    of the specification does not hold are worked out. *)

(** ** The statements of the specification *)




Lemma C8_remaining_days_reported_witness :
  (stored_subscription "G1" db_G1 = Some (0%nat, thirty_days) ∧
   allowed (subscription_gate Etc_UTC "G1" (day_one + 1) healthy (fresh db_G1)) ∧
   expiryDate_of Etc_UTC thirty_days = Some (expiry_instant thirty_days)) ∧
  ∃ q : Z,
    ceiling_of_quotient q (expiry_instant thirty_days - (day_one + 1)) msPerDay ∧
    run (interactionCreate Etc_UTC (Some "U1") (slash checksubscription "U2" "G1")
           (day_one + 1)) healthy db_G1 =
      {| reply := Some (reply_text
           ("Subscription has " +:+ pretty (Z.max 0 q) +:+ " days remaining."));
         db_after := db_G1;
         store_calls := [Subscription_findOne "G1"] |}.
Proof.
  assert (Hallowed : allowed (subscription_gate Etc_UTC "G1" (day_one + 1)
                                healthy (fresh db_G1)))
    by (eexists; reflexivity).
  split; [by split_and!|].
  exact (proj1 (C8_remaining_days_reported Etc_UTC (Some "U1")
                  (slash checksubscription "U2" "G1") 0 thirty_days
                  (day_one + 1) healthy db_G1 eq_refl eq_refl eq_refl eq_refl
                  Hallowed)
               (expiry_instant thirty_days) eq_refl).
Defined.

(** A printed integer never reads "NaN": its first character is a digit or
    the sign. *)
Lemma pretty_N_char_digit k rest : String (pretty_N_char k) rest ≠ "NaN".
Proof. unfold pretty_N_char. repeat case_match; discriminate. Qed.

Lemma pretty_N_go_head x s :
  (0 < x)%N → ∃ k rest, pretty_N_go x s = String (pretty_N_char k) rest.
Proof.
  revert s. induction (N.lt_wf_0 x) as [x _ IH]. intros s Hpos.
  rewrite pretty_N_go_step by done.
  destruct (decide (0 < x `div` 10)%N) as [Hq|Hq].
  - apply IH; [apply N.div_lt; [assumption|reflexivity]|done].
  - destruct (x `div` 10)%N as [|p]; [|by destruct Hq].
    rewrite pretty_N_go_0. eauto.
Qed.

Lemma pretty_Z_not_NaN (z : Z) : pretty z ≠ "NaN".
Proof.
  destruct z as [|p|p]; [discriminate| |discriminate].
  unfold pretty, pretty_Z, pretty, pretty_positive, pretty, pretty_N.
  destruct (decide _) as [|_]; [discriminate|].
  destruct (pretty_N_go_head (N.pos p) "") as (k & rest & ->); [lia|].
  apply pretty_N_char_digit.
Qed.

Lemma Number_toString_NaN (n : option Z) :
  Number_toString n = "NaN" ↔ n = None.
Proof.
  destruct n as [z|]; simpl; [|done].
  split; [|done]. intros Hz. by apply pretty_Z_not_NaN in Hz.
Qed.

Lemma String_length_app (s1 s2 : string) :
  String.length (s1 +:+ s2) = (String.length s1 + String.length s2)%nat.
Proof. induction s1 as [|a s1 IH]; simpl; [done|by rewrite IH]. Qed.

Lemma days_remaining_NaN (x : string) :
  x +:+ " days remaining." = "NaN days remaining." → x = "NaN".
Proof.
  intros H.
  destruct x as [|a [|b [|c [|e x]]]]; simpl in H; try discriminate.
  - by injection H as -> -> ->.
  - exfalso. injection H as _ _ _ _ H.
    assert (Hlen := f_equal String.length H). simpl in Hlen.
    rewrite String_length_app in Hlen. simpl in Hlen. lia.
Qed.

(** C8 as stated fails where the expiry is out of the range of a Date: a
    subscription of a thousand million days is let through by the gate, and
    the checksubscription reply carries no number of days at all. *)
Lemma C8_out_of_range_counterexample :
  stored_subscription "G1" db_out_of_range = Some (0%nat, out_of_range) ∧
  allowed (subscription_gate Etc_UTC "G1" day_one healthy
             (fresh db_out_of_range)) ∧
  run (interactionCreate Etc_UTC (Some "U1") (slash checksubscription "U2" "G1")
         day_one) healthy db_out_of_range =
    {| reply := Some (reply_text "Subscription has NaN days remaining.");
       db_after := db_out_of_range;
       store_calls := [Subscription_findOne "G1"] |} ∧
  ¬ ∃ q : Z,
      reply (run (interactionCreate Etc_UTC (Some "U1")
                    (slash checksubscription "U2" "G1") day_one)
                 healthy db_out_of_range) =
        Some (reply_text
          ("Subscription has " +:+ pretty (Z.max 0 q) +:+ " days remaining.")).
Proof.
  assert (Hrun : run (interactionCreate Etc_UTC (Some "U1")
                        (slash checksubscription "U2" "G1") day_one)
                   healthy db_out_of_range =
                 {| reply := Some (reply_text
                               "Subscription has NaN days remaining.");
                    db_after := db_out_of_range;
                    store_calls := [Subscription_findOne "G1"] |})
    by reflexivity.
  split_and!; [reflexivity|by eexists|exact Hrun|].
  intros [q Hq]. rewrite Hrun in Hq. simpl in Hq.
  injection Hq as Hq. cbn [String.append] in Hq. symmetry in Hq.
  apply days_remaining_NaN in Hq.
  by apply pretty_Z_not_NaN in Hq.
Qed.

Lemma C7_owner_only_extension_witness :
  (active_subscription Etc_UTC "G1" db_G1 day_one 0 thirty_days ∧
   "U2" ≠ "U1" ∧ safe_integer (30 + 10)) ∧
  run (interactionCreate Etc_UTC (Some "U1") (slash (extendtime 10) "U2" "G1") day_one)
      healthy db_G1 =
    {| reply := Some (reply_ephemeral ERROR_MESSAGES.permissionDenied);
       db_after := db_G1;
       store_calls := [Subscription_findOne "G1"] |} ∧
  durationDays "G1"
    (db_after (run (interactionCreate Etc_UTC (Some "U1")
                      (slash (extendtime 10) "U1" "G1") day_one)
                   healthy db_G1)) = Some (30 + 10).
Proof.
  assert (Hactive : active_subscription Etc_UTC "G1" db_G1 day_one 0 thirty_days).
  { split; reflexivity. }
  assert (Hne : "U2" ≠ "U1") by discriminate.
  assert (Hsafe : safe_integer (30 + 10)) by (vm_compute; discriminate).
  split; [by split_and!|]. split.
  - exact (proj1 (C7_owner_only_extension Etc_UTC "U1"
                    (slash (extendtime 10) "U2" "G1") 10 day_one healthy db_G1
                    0 thirty_days eq_refl eq_refl eq_refl Hactive) Hne).
  - exact (proj2 (proj2 (proj2 (proj1 (proj2 (C7_owner_only_extension Etc_UTC
                    "U1" (slash (extendtime 10) "U1" "G1") 10 day_one healthy
                    db_G1 0 thirty_days eq_refl eq_refl eq_refl Hactive))
                    eq_refl eq_refl))) Hsafe).
Defined.

(** C7 as stated fails for a day count near 2^53: under an active
    subscription of 30 days the configured owner's
    [extendtime days=9007199254740991] succeeds, but the duration stored is
    the double nearest to 30 + 9007199254740991, which is 9007199254741020:
    the duration has grown by N - 1, not by N. *)
Lemma C7_rounded_sum_counterexample :
  active_subscription Etc_UTC "G1" db_G1 day_one 0 thirty_days ∧
  reply (run (interactionCreate Etc_UTC (Some "U1")
                (slash (extendtime MAX_SAFE_INTEGER) "U1" "G1") day_one)
             healthy db_G1) =
    Some (reply_text "Subscription extended by 9007199254740991 days.") ∧
  durationDays "G1" db_G1 = Some 30 ∧
  durationDays "G1"
    (db_after (run (interactionCreate Etc_UTC (Some "U1")
                      (slash (extendtime MAX_SAFE_INTEGER) "U1" "G1") day_one)
                   healthy db_G1)) = Some 9007199254741020 ∧
  9007199254741020 ≠ 30 + MAX_SAFE_INTEGER.
Proof.
  split_and!; try reflexivity.
  - split; reflexivity.
  - vm_compute. discriminate.
Qed.

Lemma C3_extension_not_validated_witness :
  (active_subscription Etc_UTC "G1" db_G1 day_one 0 thirty_days ∧ -5 ≤ 0 ∧
   safe_integer (30 + -5)) ∧
  reply (run (interactionCreate Etc_UTC (Some "U1") (slash (extendtime (-5)) "U1" "G1")
                day_one) healthy db_G1) =
    Some (reply_text "Subscription extended by -5 days.") ∧
  durationDays "G1"
    (db_after (run (interactionCreate Etc_UTC (Some "U1")
                      (slash (extendtime (-5)) "U1" "G1") day_one)
                   healthy db_G1)) = Some (30 + -5) ∧
  db_after (run (interactionCreate Etc_UTC (Some "U1")
                   (slash (extendtime (-5)) "U1" "G1") day_one)
                writes_down db_G1) = db_G1.
Proof.
  assert (Hactive : active_subscription Etc_UTC "G1" db_G1 day_one 0 thirty_days).
  { split; reflexivity. }
  assert (Hdays : -5 ≤ 0) by (vm_compute; discriminate).
  assert (Hsafe : safe_integer (30 + -5)) by (vm_compute; discriminate).
  split; [by split_and!|].
  pose proof (C3_extension_not_validated Etc_UTC "U1"
                (slash (extendtime (-5)) "U1" "G1") (-5) day_one healthy db_G1
                0 thirty_days eq_refl eq_refl eq_refl Hdays eq_refl Hactive)
    as (_ & _ & Hsaved & _).
  pose proof (C3_extension_not_validated Etc_UTC "U1"
                (slash (extendtime (-5)) "U1" "G1") (-5) day_one writes_down
                db_G1 0 thirty_days eq_refl eq_refl eq_refl Hdays eq_refl
                Hactive)
    as (_ & _ & _ & Hfailed).
  destruct (Hsaved eq_refl) as (Hreply & _ & Hexact).
  destruct (Hfailed eq_refl) as [_ Hsame].
  split_and!; [assumption|exact (Hexact Hsafe)|assumption].
Defined.

(** C3 as stated fails: the owner's [extendtime days=-5] on an active
    subscription is accepted, the save is issued, and the duration drops
    from 30 to 25. *)
Lemma C3_negative_days_counterexample :
  -5 ≤ 0 ∧
  active_subscription Etc_UTC "G1" db_G1 day_one 0 thirty_days ∧
  run (interactionCreate Etc_UTC (Some "U1") (slash (extendtime (-5)) "U1" "G1")
         day_one) healthy db_G1 =
    {| reply := Some (reply_text "Subscription extended by -5 days.");
       db_after :=
         with_subscription 0
           {| subscriptionSchema.guildId := "G1";
              subscriptionSchema.startDate := 1700000000000;
              subscriptionSchema.duration := 25 |} db_G1;
       store_calls :=
         [Subscription_findOne "G1";
          Subscription_save 0
            {| subscriptionSchema.guildId := "G1";
               subscriptionSchema.startDate := 1700000000000;
               subscriptionSchema.duration := 25 |}] |} ∧
  reply (run (interactionCreate Etc_UTC (Some "U1") (slash (extendtime (-5)) "U1" "G1")
                day_one) healthy db_G1) ≠
    Some (reply_ephemeral ERROR_MESSAGES.invalidParameters) ∧
  durationDays "G1" db_G1 = Some 30 ∧
  durationDays "G1"
    (db_after (run (interactionCreate Etc_UTC (Some "U1")
                      (slash (extendtime (-5)) "U1" "G1") day_one)
                   healthy db_G1)) = Some 25.
Proof.
  split_and!.
  - vm_compute. discriminate.
  - split; reflexivity.
  - reflexivity.
  - vm_compute. discriminate.
  - reflexivity.
  - reflexivity.
Qed.

Lemma C1_grant_revoke_open_to_every_caller_witness :
  (active_subscription Etc_UTC "G1" db_G1 day_one 0 thirty_days ∧
   active_subscription Etc_UTC "G1" db_G1_U2 day_one 0 thirty_days) ∧
  db_after (run (interactionCreate Etc_UTC (Some "U1")
                   (slash (grantaccess "U2" true false) "U2" "G1") day_one)
                healthy db_G1) = db_G1_U2 ∧
  db_after (run (interactionCreate Etc_UTC (Some "U1")
                   (slash (revokeaccess "U2") "U2" "G1") day_one)
                healthy db_G1_U2) = db_G1.
Proof.
  assert (Hactive : active_subscription Etc_UTC "G1" db_G1 day_one 0 thirty_days).
  { split; reflexivity. }
  assert (Hactive' : active_subscription Etc_UTC "G1" db_G1_U2 day_one 0 thirty_days).
  { split; reflexivity. }
  split; [by split|]. split.
  - pose proof (C1_grant_revoke_open_to_every_caller Etc_UTC (Some "U1")
                  (slash (grantaccess "U2" true false) "U2" "G1") day_one
                  healthy db_G1 0 thirty_days eq_refl eq_refl Hactive)
      as (Hgrant & _ & _).
    by rewrite (Hgrant "U2" true false eq_refl eq_refl).
  - pose proof (C1_grant_revoke_open_to_every_caller Etc_UTC (Some "U1")
                  (slash (revokeaccess "U2") "U2" "G1") day_one
                  healthy db_G1_U2 0 thirty_days eq_refl eq_refl Hactive')
      as (_ & Hrevoke & _).
    by rewrite (Hrevoke "U2" eq_refl eq_refl).
Defined.

(** C1 as stated fails: U2 is not the configured owner U1, yet U2's
    grantaccess creates a permission record and U2's revokeaccess deletes
    one; neither reply is the permission-denied message. *)
Lemma C1_stranger_grants_and_revokes_counterexample :
  "U2" ≠ "U1" ∧
  run (interactionCreate Etc_UTC (Some "U1")
         (slash (grantaccess "U2" true false) "U2" "G1") day_one)
      healthy db_G1 =
    {| reply := Some (reply_text "Access granted successfully.");
       db_after := db_G1_U2;
       store_calls :=
         [Subscription_findOne "G1";
          Permission_create (granted "G1" "U2" true false)] |} ∧
  permissions db_G1_U2 ≠ permissions db_G1 ∧
  run (interactionCreate Etc_UTC (Some "U1")
         (slash (revokeaccess "U2") "U2" "G1") day_one)
      healthy db_G1_U2 =
    {| reply := Some (reply_text "Access revoked successfully.");
       db_after := db_G1;
       store_calls :=
         [Subscription_findOne "G1";
          Permission_findOneAndDelete "G1" "U2"] |} ∧
  reply_text "Access granted successfully." ≠
    reply_ephemeral ERROR_MESSAGES.permissionDenied ∧
  reply_text "Access revoked successfully." ≠
    reply_ephemeral ERROR_MESSAGES.permissionDenied.
Proof.
  split_and!; try discriminate; reflexivity.
Qed.

Lemma C2_grant_appends_a_record_witness :
  (active_subscription Etc_UTC "G1" db_G1 day_one 0 thirty_days ∧
   active_subscription Etc_UTC "G1" db_G1 (day_one + 1) 0 thirty_days ∧
   permission_records "G1" "U2" db_G1 = []) ∧
  permission_records "G1" "U2"
    (db_after (run (interactionCreate Etc_UTC (Some "U1")
                      (slash (grantaccess "U2" false true) "U1" "G1")
                      (day_one + 1)) healthy
       (db_after (run (interactionCreate Etc_UTC (Some "U1")
                         (slash (grantaccess "U2" true false) "U1" "G1")
                         day_one) healthy db_G1)))) =
    [granted "G1" "U2" true false; granted "G1" "U2" false true].
Proof.
  assert (Hactive : active_subscription Etc_UTC "G1" db_G1 day_one 0 thirty_days).
  { split; reflexivity. }
  assert (Hle : active_subscription Etc_UTC "G1" db_G1 (day_one + 1) 0
                  thirty_days).
  { split; reflexivity. }
  split; [by split_and!|].
  exact (proj2 (C2_grant_appends_a_record Etc_UTC (Some "U1") "G1" "U2" "U1" "U1"
                  day_one (day_one + 1) db_G1 0 thirty_days Hactive Hle)
               eq_refl).
Defined.

(** C2 as stated fails: after grant(G1,U2,true,false) and
    grant(G1,U2,false,true) the pair has two records, and the first one
    still carries canAddTime = true. *)
Lemma C2_two_grants_two_records_counterexample :
  let after :=
    db_after (run (interactionCreate Etc_UTC (Some "U1")
                     (slash (grantaccess "U2" false true) "U1" "G1")
                     (day_one + 1)) healthy
      (db_after (run (interactionCreate Etc_UTC (Some "U1")
                        (slash (grantaccess "U2" true false) "U1" "G1")
                        day_one) healthy db_G1))) in
  permission_records "G1" "U2" db_G1 = [] ∧
  permission_records "G1" "U2" after =
    [granted "G1" "U2" true false; granted "G1" "U2" false true] ∧
  length (permission_records "G1" "U2" after) ≠ 1%nat.
Proof.
  split_and!; [reflexivity|reflexivity|vm_compute; discriminate].
Qed.

Lemma C4_every_join_inserts_witness :
  healthy (Subscription_create (bootstrap_record "G1" day_one)) = false ∧
  subscription_count "G1" (run_guildCreate "G1" day_one healthy db_G1) = 2%nat ∧
  subscription_count "G1" (run_joins "G1" [day_one; day_one] db_empty) = 2%nat.
Proof.
  split; [reflexivity|]. split.
  - exact (proj2 (proj2 (proj1 (C4_every_join_inserts "G1" day_one healthy
                                  db_G1) eq_refl))).
  - exact (proj2 (proj2 (C4_every_join_inserts "G1" day_one healthy db_empty))
             [day_one; day_one]).
Defined.

(** C4 as stated fails: a join notification delivered twice for G1 leaves
    two Subscription records for G1; the second was created although one
    existed. *)
Lemma C4_duplicate_join_counterexample :
  subscription_count "G1" (run_joins "G1" [day_one] db_empty) = 1%nat ∧
  subscriptions (run_joins "G1" [day_one; day_one] db_empty) =
    [bootstrap_record "G1" day_one; bootstrap_record "G1" day_one] ∧
  ¬ (subscription_count "G1" (run_joins "G1" [day_one; day_one] db_empty)
     ≤ 1)%nat.
Proof.
  split_and!; [reflexivity|reflexivity|vm_compute; lia].
Qed.

Lemma C9_gated_commands_are_empty_branches_witness :
  active_subscription Etc_UTC "G1" db_G1 day_one 0 thirty_days ∧
  run (interactionCreate Etc_UTC (Some "U1") (slash (removeplaytime "steam:1") "U2" "G1")
         day_one) healthy db_G1 =
    {| reply := None;
       db_after := db_G1;
       store_calls := [Subscription_findOne "G1"] |}.
Proof.
  assert (Hactive : active_subscription Etc_UTC "G1" db_G1 day_one 0 thirty_days).
  { split; reflexivity. }
  split; [assumption|].
  exact (proj1 (C9_gated_commands_are_empty_branches Etc_UTC (Some "U1")
                  (slash (removeplaytime "steam:1") "U2" "G1") day_one healthy
                  db_G1 0 thirty_days eq_refl eq_refl eq_refl Hactive)).
Defined.

(** C9 as stated fails: U2 has no Permission record in G1, the
    subscription is active, and U2's addtime is not denied: the handler
    sends no reply at all.  The same holds for resetplaytime and
    removeplaytime. *)
Lemma C9_no_record_not_denied_counterexample :
  active_subscription Etc_UTC "G1" db_G1 day_one 0 thirty_days ∧
  permission_records "G1" "U2" db_G1 = [] ∧
  reply (run (interactionCreate Etc_UTC (Some "U1") (slash (addtime "steam:1" 60) "U2" "G1")
                day_one) healthy db_G1) = None ∧
  reply (run (interactionCreate Etc_UTC (Some "U1") (slash (resetplaytime "U3") "U2" "G1")
                day_one) healthy db_G1) = None ∧
  reply (run (interactionCreate Etc_UTC (Some "U1") (slash (removeplaytime "steam:1") "U2" "G1")
                day_one) healthy db_G1) = None ∧
  (None : option Reply) ≠ Some (reply_ephemeral ERROR_MESSAGES.permissionDenied).
Proof.
  split_and!; try reflexivity; try discriminate.
  split; reflexivity.
Qed.

Lemma C10_expired_subscription_is_a_trap_witness :
  let s := {| clock := just_expired; store := db_G1 |} in
  let s' :=
    {| clock := just_expired + 1;
       store := db_after (run (interactionCreate Etc_UTC (Some "U1")
                                 (slash (extendtime 10) "U1" "G1")
                                 (just_expired + 1)) healthy db_G1) |} in
  (expired_subscription Etc_UTC "G1" (store s) (clock s) 0 thirty_days ∧
   rtc (command_step Etc_UTC (Some "U1")) s s') ∧
  durationDays "G1" (store s') = Some 30 ∧
  run (interactionCreate Etc_UTC (Some "U1") (slash (extendtime 10) "U1" "G1")
         (just_expired + 2)) healthy (store s') =
    {| reply := Some (reply_ephemeral ERROR_MESSAGES.subscriptionExpired);
       db_after := store s';
       store_calls := [Subscription_findOne "G1"] |}.
Proof.
  intros s s'.
  assert (Hexpired : expired_subscription Etc_UTC "G1" (store s) (clock s) 0 thirty_days).
  { split; reflexivity. }
  assert (Hclock : clock s ≤ just_expired + 1) by (vm_compute; discriminate).
  assert (Hsteps : rtc (command_step Etc_UTC (Some "U1")) s s').
  { apply rtc_once.
    exact (deliver Etc_UTC (Some "U1") s (slash (extendtime 10) "U1" "G1")
             (just_expired + 1) healthy Hclock). }
  assert (Hlater : clock s' ≤ just_expired + 2) by (vm_compute; discriminate).
  split; [by split|].
  destruct (C10_expired_subscription_is_a_trap Etc_UTC (Some "U1") "G1" 0 thirty_days
              s s' Hexpired Hsteps) as (_ & Hduration & Hextend).
  split.
  - by rewrite Hduration.
  - exact (proj2 (Hextend "U1" 10 (just_expired + 2) healthy Hlater) eq_refl).
Defined.

(** C10 as stated fails where the expiry is out of the range of a Date.
    With duration -200000000 the clock is strictly after
    [startDate + duration] days, yet the expiry date is an Invalid Date:
    the owner's [extendtime days=7] is saved and the duration changes. *)
Lemma C10_invalid_expiry_counterexample :
  stored_subscription "G1" db_long_gone = Some (0%nat, long_gone) ∧
  expiry_instant long_gone < day_one ∧
  run (interactionCreate Etc_UTC (Some "U1") (slash (extendtime 7) "U1" "G1")
         day_one) healthy db_long_gone =
    {| reply := Some (reply_text "Subscription extended by 7 days.");
       db_after :=
         with_subscription 0 (Subscription.add_duration long_gone 7)
           db_long_gone;
       store_calls :=
         [Subscription_findOne "G1";
          Subscription_save 0 (Subscription.add_duration long_gone 7)] |} ∧
  durationDays "G1" db_long_gone = Some (-200000000) ∧
  durationDays "G1"
    (db_after (run (interactionCreate Etc_UTC (Some "U1")
                      (slash (extendtime 7) "U1" "G1") day_one)
                   healthy db_long_gone)) = Some (-199999993) ∧
  -199999993 ≠ -200000000.
Proof.
  split_and!; try reflexivity. discriminate.
Qed.

(** ** The further properties *)

Lemma thirty_days_active :
  active_subscription Etc_UTC "G1" db_G1 day_one 0 thirty_days.
Proof. split; reflexivity. Defined.


Lemma failed_store_call_changes_nothing_witness :
  let out := run (interactionCreate Etc_UTC (Some "U1")
                    (slash (extendtime 10) "U1" "G1") day_one)
                 writes_down db_G1 in
  (Subscription_save 0 (Subscription.add_duration thirty_days 10)
     ∈ store_calls out ∧
   writes_down (Subscription_save 0 (Subscription.add_duration thirty_days 10))
     = true) ∧
  db_after out = db_G1 ∧ failure_reply (reply out).
Proof.
  intros out.
  assert (Hin : Subscription_save 0 (Subscription.add_duration thirty_days 10)
                  ∈ store_calls out).
  { apply list_elem_of_In. right. left. reflexivity. }
  split; [by split|].
  exact (failed_store_call_changes_nothing Etc_UTC (Some "U1")
           (slash (extendtime 10) "U1" "G1") day_one writes_down db_G1 _
           Hin eq_refl).
Defined.

Lemma revoke_without_record_changes_nothing_witness :
  permission_records "G1" "U3" db_G1_U2 = [] ∧
  db_after (run (interactionCreate Etc_UTC (Some "U1") (slash (revokeaccess "U3") "U2" "G1")
                   day_one) healthy db_G1_U2) = db_G1_U2.
Proof.
  assert (Hactive : active_subscription Etc_UTC "G1" db_G1_U2 day_one 0 thirty_days).
  { split; reflexivity. }
  split; [reflexivity|].
  by rewrite (revoke_without_record_changes_nothing Etc_UTC (Some "U1")
                (slash (revokeaccess "U3") "U2" "G1") "U3" day_one healthy
                db_G1_U2 0 thirty_days eq_refl eq_refl eq_refl eq_refl
                Hactive eq_refl).
Defined.

Lemma revoke_removes_one_record_witness :
  active_subscription Etc_UTC "G1" db_G1_U2_twice day_one 0 thirty_days ∧
  permission_records "G1" "U2"
    (db_after (run (interactionCreate Etc_UTC (Some "U1")
                      (slash (revokeaccess "U2") "U1" "G1") day_one)
                   healthy db_G1_U2_twice)) =
    [granted "G1" "U2" false true].
Proof.
  assert (Hactive : active_subscription Etc_UTC "G1" db_G1_U2_twice day_one 0
                      thirty_days).
  { split; reflexivity. }
  split; [done|].
  exact (proj1 (revoke_removes_one_record Etc_UTC (Some "U1")
                  (slash (revokeaccess "U2") "U1" "G1") "U2" day_one healthy
                  db_G1_U2_twice 0 thirty_days eq_refl eq_refl eq_refl eq_refl
                  Hactive)).
Defined.

Lemma grant_then_revoke_restores_witness :
  (active_subscription Etc_UTC "G1" db_G1 day_one 0 thirty_days ∧
   active_subscription Etc_UTC "G1" db_G1 (day_one + 1) 0 thirty_days ∧
   permission_records "G1" "U2" db_G1 = []) ∧
  db_after (run (interactionCreate Etc_UTC (Some "U1") (slash (revokeaccess "U2") "U1" "G1")
                   (day_one + 1)) healthy
    (db_after (run (interactionCreate Etc_UTC (Some "U1")
                      (slash (grantaccess "U2" true true) "U1" "G1") day_one)
                   healthy db_G1))) = db_G1.
Proof.
  assert (Hlater : active_subscription Etc_UTC "G1" db_G1 (day_one + 1) 0
                     thirty_days).
  { split; reflexivity. }
  split; [split_and!; [exact thirty_days_active|done|reflexivity]|].
  exact (proj2 (grant_then_revoke_restores Etc_UTC (Some "U1") "G1" "U2" true true
                  "U1" "U1" day_one (day_one + 1) db_G1 0 thirty_days
                  thirty_days_active Hlater eq_refl)).
Defined.

Lemma regrant_keeps_hasPermission_witness :
  permission_records "G1" "U2" db_G1_U2 ≠ [] ∧
  fst (hasPermission "G1" "U2" healthy
         (fresh (db_after (run (interactionCreate Etc_UTC (Some "U1")
                                  (slash (grantaccess "U2" false false) "U1" "G1")
                                  day_one) healthy db_G1_U2)))) =
  fst (hasPermission "G1" "U2" healthy (fresh db_G1_U2)).
Proof.
  assert (Hactive : active_subscription Etc_UTC "G1" db_G1_U2 day_one 0 thirty_days).
  { split; reflexivity. }
  assert (Hsome : permission_records "G1" "U2" db_G1_U2 ≠ []) by discriminate.
  split; [done|].
  exact (regrant_keeps_hasPermission Etc_UTC (Some "U1")
           (slash (grantaccess "U2" false false) "U1" "G1") "U2" false false
           day_one healthy db_G1_U2 0 thirty_days eq_refl eq_refl eq_refl
           Hactive Hsome healthy).
Defined.

Lemma permissions_of_other_guilds_untouched_witness :
  "G2" ≠ "G1" ∧
  permission_records "G2" "U2"
    (db_after (run (interactionCreate Etc_UTC (Some "U1")
                      (slash (revokeaccess "U2") "U1" "G1") day_one)
                   healthy db_two_guilds)) =
    permission_records "G2" "U2" db_two_guilds ∧
  permissions
    (db_after (run (interactionCreate Etc_UTC (Some "U1")
                      (slash (extendtime 5) "U1" "G1") day_one)
                   healthy db_two_guilds)) = permissions db_two_guilds.
Proof.
  assert (Hne : "G2" ≠ "G1") by discriminate.
  split; [done|]. split.
  - exact (proj1 (permissions_of_other_guilds_untouched Etc_UTC (Some "U1")
                    (slash (revokeaccess "U2") "U1" "G1") day_one healthy
                    db_two_guilds) "G2" "U2" Hne).
  - apply (proj2 (permissions_of_other_guilds_untouched Etc_UTC (Some "U1")
                    (slash (extendtime 5) "U1" "G1") day_one healthy
                    db_two_guilds)); discriminate.
Defined.

Lemma commands_keep_subscription_records_witness :
  "G2" ≠ "G1" ∧
  stored_subscription "G2"
    (db_after (run (interactionCreate Etc_UTC (Some "U1")
                      (slash (extendtime 5) "U1" "G1") day_one)
                   healthy db_two_guilds)) =
    stored_subscription "G2" db_two_guilds ∧
  subscriptions
    (db_after (run (interactionCreate Etc_UTC (Some "U1")
                      (slash (extendtime 5) "U2" "G1") day_one)
                   healthy db_two_guilds)) = subscriptions db_two_guilds.
Proof.
  assert (Hne : "G2" ≠ "G1") by discriminate.
  split; [done|]. split.
  - exact (proj1 (proj2 (commands_keep_subscription_records Etc_UTC (Some "U1")
                           (slash (extendtime 5) "U1" "G1") day_one healthy
                           db_two_guilds)) "G2" Hne).
  - apply (proj2 (proj2 (commands_keep_subscription_records Etc_UTC (Some "U1")
                           (slash (extendtime 5) "U2" "G1") day_one healthy
                           db_two_guilds))).
    right. discriminate.
Defined.

Lemma extensions_add_up_witness :
  (active_subscription Etc_UTC "G1" db_G1 day_one 0 thirty_days ∧
   Date_gt (Some (day_one + 1))
     (expiryDate_of Etc_UTC (Subscription.add_duration thirty_days 5)) = false ∧
   safe_integer (30 + 5) ∧ safe_integer (30 + 5 + -2)) ∧
  durationDays "G1"
    (db_after (run (interactionCreate Etc_UTC (Some "U1")
                      (slash (extendtime (-2)) "U1" "G1") (day_one + 1))
                   healthy
       (db_after (run (interactionCreate Etc_UTC (Some "U1")
                         (slash (extendtime 5) "U1" "G1") day_one)
                      healthy db_G1)))) = Some (30 + 5 + -2).
Proof.
  assert (Hquiet : Date_gt (Some (day_one + 1))
                     (expiryDate_of Etc_UTC
                        (Subscription.add_duration thirty_days 5)) = false)
    by reflexivity.
  assert (Hsafe : safe_integer (30 + 5)) by (vm_compute; discriminate).
  assert (Hsafe' : safe_integer (30 + 5 + -2)) by (vm_compute; discriminate).
  split; [split_and!; [exact thirty_days_active|done..]|].
  exact (proj2 (extensions_add_up Etc_UTC "U1" "G1" 5 (-2) day_one (day_one + 1) db_G1
                  0 thirty_days thirty_days_active Hquiet Hsafe Hsafe')).
Defined.

Lemma unset_owner_blocks_extension_witness :
  active_subscription Etc_UTC "G1" db_G1 day_one 0 thirty_days ∧
  db_after (run (interactionCreate Etc_UTC None (slash (extendtime 10) "U1" "G1") day_one)
                healthy db_G1) = db_G1 ∧
  reply (run (interactionCreate Etc_UTC None (slash (extendtime 10) "U1" "G1") day_one)
             healthy db_G1) =
    Some (reply_ephemeral ERROR_MESSAGES.permissionDenied).
Proof.
  split; [exact thirty_days_active|].
  destruct (unset_owner_blocks_extension Etc_UTC (slash (extendtime 10) "U1" "G1") 10
              eq_refl) as [Hkept Hdenied].
  split.
  - exact (Hkept day_one healthy db_G1).
  - exact (Hdenied day_one healthy db_G1 0%nat thirty_days eq_refl eq_refl
             thirty_days_active).
Defined.

Lemma joined_guild_expires_at_once_witness :
  (stored_subscription "G1" db_empty = None ∧ representable day_one ∧
   UTC Etc_UTC (LocalTime Etc_UTC day_one) = day_one) ∧
  reply (run (interactionCreate Etc_UTC (Some "U1") (slash (extendtime 30) "U1" "G1")
                (day_one + 1)) healthy
           (run_guildCreate "G1" day_one healthy db_empty)) =
    Some (reply_ephemeral ERROR_MESSAGES.subscriptionExpired).
Proof.
  assert (Hrep : representable day_one) by (vm_compute; discriminate).
  split; [by split_and!|].
  destruct (joined_guild_expires_at_once Etc_UTC "G1" day_one healthy db_empty
              eq_refl eq_refl Hrep eq_refl) as [_ Hlater].
  by rewrite (Hlater (Some "U1") (extendtime 30) "U1" (day_one + 1) healthy
                eq_refl eq_refl).
Defined.

Lemma rejoin_keeps_the_first_record_witness :
  stored_subscription "G1" db_G1 = Some (0%nat, thirty_days) ∧
  stored_subscription "G1" (run_guildCreate "G1" just_expired healthy db_G1) =
    Some (0%nat, thirty_days).
Proof.
  split; [reflexivity|].
  exact (proj1 (rejoin_keeps_the_first_record Etc_UTC "G1" "G1" just_expired
                  just_expired healthy db_G1 0 thirty_days eq_refl)).
Defined.

Lemma remaining_days_bounds_witness :
  (active_subscription Etc_UTC "G1" db_G1 day_one 0 thirty_days ∧
   expiryDate_of Etc_UTC thirty_days = Some (expiry_instant thirty_days)) ∧
  ∃ n : Z,
    reply (run (interactionCreate Etc_UTC (Some "U1") (slash checksubscription "U2" "G1")
                  day_one) healthy db_G1) =
      Some (reply_text ("Subscription has " +:+ pretty n +:+ " days remaining.")) ∧
    0 ≤ n ∧ n ≤ 30.
Proof.
  split; [split; [exact thirty_days_active|reflexivity]|].
  destruct (remaining_days_bounds Etc_UTC (Some "U1") (slash checksubscription "U2" "G1")
              day_one healthy db_G1 0 thirty_days (expiry_instant thirty_days)
              eq_refl eq_refl eq_refl thirty_days_active eq_refl)
    as (n & Hreply & Hpos & _ & Hle).
  exists n. split_and!; [done|done|].
  apply (Hle 0); [reflexivity|]. vm_compute. discriminate.
Defined.

Lemma extension_adds_to_reported_days_witness :
  (active_subscription Etc_UTC "G1" db_G1 day_one 0 thirty_days ∧
   representable (subscriptionSchema.startDate thirty_days) ∧
   representable (expiry_instant thirty_days) ∧
   safe_integer (30 + 5) ∧
   representable (expiry_instant (Subscription.add_duration thirty_days 5)) ∧
   day_one ≤ expiry_instant (Subscription.add_duration thirty_days 5)) ∧
  ∃ n : Z,
    reply (run (interactionCreate Etc_UTC (Some "U1") (slash checksubscription "U2" "G1")
                  day_one) healthy db_G1) =
      Some (reply_text ("Subscription has " +:+ pretty n +:+ " days remaining.")) ∧
    reply (run (interactionCreate Etc_UTC (Some "U1") (slash checksubscription "U2" "G1")
                  day_one) healthy
             (db_after (run (interactionCreate Etc_UTC (Some "U1")
                               (slash (extendtime 5) "U1" "G1") day_one)
                            healthy db_G1))) =
      Some (reply_text
        ("Subscription has " +:+ pretty (n + 5) +:+ " days remaining.")).
Proof.
  assert (Hstart : representable (subscriptionSchema.startDate thirty_days))
    by (vm_compute; discriminate).
  assert (Hend : representable (expiry_instant thirty_days))
    by (vm_compute; discriminate).
  assert (Hsafe : safe_integer (30 + 5)) by (vm_compute; discriminate).
  assert (Hrep : representable
                   (expiry_instant (Subscription.add_duration thirty_days 5)))
    by (vm_compute; discriminate).
  assert (Hle : day_one ≤
                expiry_instant (Subscription.add_duration thirty_days 5))
    by (vm_compute; discriminate).
  split; [split_and!; [exact thirty_days_active|done..]|].
  exact (extension_adds_to_reported_days Etc_UTC "U1" "U2" "G1" 0 5 day_one
           db_G1 0 thirty_days (λ _ _, eq_refl) thirty_days_active Hstart Hend
           Hsafe Hrep Hle).
Defined.

Lemma unrepresentable_expiry_never_expires_witness :
  expiryDate_of Etc_UTC out_of_range = None ∧
  reply (run (interactionCreate Etc_UTC (Some "U1") (slash checksubscription "U2" "G1")
                maxTimeValue) healthy db_out_of_range) =
    Some (reply_text "Subscription has NaN days remaining.").
Proof.
  split; [reflexivity|].
  exact (proj1 (proj2 (proj2 (unrepresentable_expiry_never_expires Etc_UTC
                         (Some "U1") (slash checksubscription "U2" "G1")
                         maxTimeValue healthy db_out_of_range 0 out_of_range
                         eq_refl eq_refl eq_refl eq_refl))) eq_refl).
Defined.

(** ** A host on daylight saving time *)

(** Thirty calendar days from noon of 20 October 2023 in New York end at
    noon of 19 November, an hour later than thirty times 24 hours.  One
    millisecond after [startDate + 30 days] the gate still allows and
    checksubscription reports one day; at the start date it reports 31. *)
Lemma New_York_expiry_is_an_hour_later :
  expiry_instant from_october = 1700409600000 ∧
  expiryDate_of New_York from_october = Some 1700413200000 ∧
  allowed (subscription_gate New_York "G1" 1700409600001 healthy
             (fresh db_from_october)) ∧
  reply (run (interactionCreate New_York (Some "U1")
                (slash checksubscription "U2" "G1") 1700409600001)
             healthy db_from_october) =
    Some (reply_text "Subscription has 1 days remaining.") ∧
  reply (run (interactionCreate New_York (Some "U1")
                (slash checksubscription "U2" "G1")
                (subscriptionSchema.startDate from_october))
             healthy db_from_october) =
    Some (reply_text "Subscription has 31 days remaining.").
Proof. split_and!; try reflexivity. by eexists. Qed.

(** A guild that joins at 01:30 New York time on 5 November 2023, the
    second time that hour comes round, gets an expiry date one hour before
    the join: a command at the instant of the join is answered as expired. *)
Lemma New_York_join_in_the_repeated_hour :
  UTC New_York (LocalTime New_York second_half_past_one) =
    second_half_past_one - 3600000 ∧
  expiryDate_of New_York (bootstrap_record "G1" second_half_past_one) =
    Some (second_half_past_one - 3600000) ∧
  reply (run (interactionCreate New_York (Some "U1")
                (slash checksubscription "U2" "G1") second_half_past_one)
             healthy
             (run_guildCreate "G1" second_half_past_one healthy db_empty)) =
    Some (reply_ephemeral ERROR_MESSAGES.subscriptionExpired).
Proof. split_and!; reflexivity. Qed.
